(** * ant-farm: the World model (src/models/world.ts)

    A shallow embedding of the [World] class: the bit-packed tile grid
    (a [Uint32Array] view over an [ArrayBuffer]) and the entity / layer
    bookkeeping, followed by the properties of the specification that
    concern them.

    Conventions of the embedding:
    - a JavaScript Number is an integer [Z]; the 32-bit conversions that the
      bitwise operators and the typed array perform are written out
      ([JS.ToInt32], [JS.ToUint32]).  Non-integral Numbers, and products
      beyond the exact range of a double, are outside the model;
    - the [ArrayBuffer] is a [list byte]; [grid] is a view over it, so a
      tile is four bytes of the buffer, assembled in little-endian order
      (the byte order of the platforms the program runs on);
    - [undefined] and [null] are [None];
    - an [Entity] is an object reference: entities are compared by identity
      and their position is read through the heap [pos];
    - [Quadtree] (src/models/quadtree, absent) is a parameter that
      implements the [EntityStorage] interface of src/lib/entity-storage.ts;
    - whether the engine can allocate a buffer is a parameter,
      [allocatable], of [new ArrayBuffer] and so of the constructor;
    - a method that mutates [this] returns the new world. *)

From Stdlib Require Import ZArith Lia List String QArith Bool.
From coqutil Require Import Byte Word.LittleEndianList Z.bitblast.
Import ListNotations.
Local Open Scope Z_scope.
Local Open Scope bool_scope.

(* ================================================================== *)
(** * Part I: definitions                                              *)
(* ================================================================== *)

(** ** JavaScript's 32-bit integer operators (ECMA-262, 7.1.6, 7.1.7, 13.9, 13.12) *)

Module JS.

Definition ToUint32 (n : Z) : Z := n mod 2 ^ 32.

Definition ToInt32 (n : Z) : Z :=
  let int32bit := n mod 2 ^ 32 in
  if 2 ^ 31 <=? int32bit then int32bit - 2 ^ 32 else int32bit.

(** [a & b] *)
Definition band (a b : Z) : Z := Z.land (ToInt32 a) (ToInt32 b).

(** [a | b] *)
Definition bor (a b : Z) : Z := Z.lor (ToInt32 a) (ToInt32 b).

(** [~a] *)
Definition bnot (a : Z) : Z := Z.lnot (ToInt32 a).

(** [a << n] *)
Definition shl (a n : Z) : Z :=
  ToInt32 (Z.shiftl (ToInt32 a) (ToUint32 n mod 32)).

(** [a >>> n] *)
Definition ushr (a n : Z) : Z := Z.shiftr (ToUint32 a) (ToUint32 n mod 32).

(** An [ArrayBuffer] is its bytes. *)
Definition ArrayBuffer := list byte.

Definition byteLength (b : ArrayBuffer) : Z := Z.of_nat (List.length b).

Inductive Error :=
  | SizeMismatch   (* the [throw new Error(...)] of the World constructor *)
  | RangeError.    (* thrown by [new ArrayBuffer] and [new Uint32Array] *)

(** [new ArrayBuffer(n)] (ECMA-262, 25.1.4.1, 25.1.3.1 and 6.2.9.1): a
    RangeError when [n] is not an index (negative, or above [2^53 - 1]) and
    when the engine cannot create a data block of [n] bytes; otherwise [n]
    zero bytes.  Whether the engine can is no matter of the program:
    [allocatable n] stands for it. *)
Definition new_ArrayBuffer (allocatable : Z -> bool) (n : Z)
  : Error + ArrayBuffer :=
  if (n <? 0) || (2 ^ 53 - 1 <? n) then inl RangeError
  else if allocatable n then inr (repeat Byte.x00 (Z.to_nat n))
  else inl RangeError.

(** [new Uint32Array(buffer)]: the byte length must be a multiple of 4. *)
Definition Uint32Array_viewable (b : ArrayBuffer) : bool :=
  byteLength b mod 4 =? 0.

(** Number of elements of the [Uint32Array] view. *)
Definition Uint32Array_length (b : ArrayBuffer) : Z := byteLength b / 4.

(** [view[i]]: [undefined] unless [i] is a valid integer index. *)
Definition Uint32Array_get (b : ArrayBuffer) (i : Z) : option Z :=
  if (0 <=? i) && (i <? Uint32Array_length b)
  then Some (le_combine (firstn 4 (skipn (Z.to_nat (4 * i)) b)))
  else None.

(** [view[i] = v]: stores [ToUint32 v]; ignored when [i] is not a valid
    integer index. *)
Definition Uint32Array_set (b : ArrayBuffer) (i : Z) (v : Z) : ArrayBuffer :=
  if (0 <=? i) && (i <? Uint32Array_length b)
  then firstn (Z.to_nat (4 * i)) b
       ++ le_split 4 (ToUint32 v)
       ++ skipn (Z.to_nat (4 * i) + 4) b
  else b.

End JS.

(** ** The bit scheme of a tile *)

Module BitField.
Record t := mk { length : Z; offset : Z; mask : Z }.
End BitField.

(** [keyof typeof World.bitScheme] *)
Inductive Property := entityType | entityId | terrain | homeTrail | foodTrail.

Definition bitScheme (property : Property) : BitField.t :=
  match property with
  | entityType => BitField.mk 4  0  0x0000000F
  | entityId   => BitField.mk 12 4  0x0000FFF0
  | terrain    => BitField.mk 2  16 0x00030000
  | homeTrail  => BitField.mk 3  18 0x001C0000
  | foodTrail  => BitField.mk 3  21 0x00E00000
  end.

Definition Tile := Z.

(** [(tile & mask) >>> offset] *)
Definition getBitValue (tile : Tile) (property : Property) : Z :=
  let offset := BitField.offset (bitScheme property) in
  let mask := BitField.mask (bitScheme property) in
  JS.ushr (JS.band tile mask) offset.

(** [(value << offset) | (tile & ~mask)] *)
Definition setBitValue (tile : Tile) (property : Property) (value : Z) : Z :=
  let mask := BitField.mask (bitScheme property) in
  let offset := BitField.offset (bitScheme property) in
  JS.bor (JS.shl value offset) (JS.band tile (JS.bnot mask)).

(** Bit [i] of a tile lies in the field of [property]. *)
Definition in_field (property : Property) (i : Z) : bool :=
  (BitField.offset (bitScheme property) <=? i)
  && (i <? BitField.offset (bitScheme property)
           + BitField.length (bitScheme property)).

(** [q] is the field that starts where [p] ends. *)
Definition adjacent_higher (p q : Property) : bool :=
  BitField.offset (bitScheme q)
  =? BitField.offset (bitScheme p) + BitField.length (bitScheme p).

(** ** Entities, rectangles and the storage interface *)

(** An entity is an object; the world holds references to it and compares
    them with [===] and [indexOf], that is by identity. *)
Definition Entity := positive.
Bind Scope positive_scope with Entity.

Definition same_entity (a b : Entity) : bool := Pos.eqb a b.

(** [entity.pos], a pair of Numbers. *)
Module Vector.
Record t := mk { x : Q; y : Q }.
End Vector.

(** Modelled from the spec: the Rectangle class (src/lib/rectangle is
    absent): a box given by its centre and its half-extents, with both
    bounds inclusive. *)
Module Rectangle.
Record t := mk { x : Q; y : Q; w : Q; h : Q }.

Definition contains (r : t) (p : Vector.t) : bool :=
  Qle_bool (x r - w r) (Vector.x p) && Qle_bool (Vector.x p) (x r + w r)
  && Qle_bool (y r - h r) (Vector.y p) && Qle_bool (Vector.y p) (y r + h r).
End Rectangle.

(** src/lib/entity-storage.ts: [interface EntityStorage].  The receiver is
    the last argument and is returned next to the result when the method
    may change it. *)
Class EntityStorage (T : Type) := {
  storage_insert : Entity -> T -> bool * T;
  storage_remove : Entity -> T -> option Entity * T;
  storage_clear : T -> T;
  storage_query : Rectangle.t -> list Entity -> T -> list Entity
}.

(** ** [Set<Entity>]: insertion-ordered, without duplicates *)

Module EntitySet.
Definition t := list Entity.

Definition has (e : Entity) (s : t) : bool := existsb (same_entity e) s.

Definition add (e : Entity) (s : t) : t := if has e s then s else s ++ [e].

Definition delete (e : Entity) (s : t) : t :=
  filter (fun e' => negb (same_entity e e')) s.

Definition size (s : t) : Z := Z.of_nat (List.length s).
End EntitySet.

(** ** [Map<string, V>]: insertion-ordered, one entry per key *)

Module StringMap.
Section WithValue.
Context {V : Type}.

Definition t := list (string * V).

Fixpoint get (k : string) (m : t) : option V :=
  match m with
  | [] => None
  | (k', v) :: m' => if String.eqb k k' then Some v else get k m'
  end.

(** An existing key keeps its place; a new key goes last. *)
Fixpoint set (k : string) (v : V) (m : t) : t :=
  match m with
  | [] => [(k, v)]
  | (k', v') :: m' =>
      if String.eqb k k' then (k', v) :: m' else (k', v') :: set k v m'
  end.

Definition values (m : t) : list V := map snd m.
End WithValue.
Arguments t : clear implicits.
End StringMap.

(** ** Arrays of entities: [indexOf] and [splice(index, 1)] *)

Module EntityArray.
(** Index of the first element identical to [e], [-1] when there is none. *)
Fixpoint indexOf (e : Entity) (l : list Entity) : Z :=
  match l with
  | [] => -1
  | e' :: l' =>
      if same_entity e' e then 0
      else let i := indexOf e l' in if i <? 0 then -1 else i + 1
  end.

(** [l.splice(index, 1)] for [0 <= index]: the array without that element. *)
Definition splice1 (index : Z) (l : list Entity) : list Entity :=
  firstn (Z.to_nat index) l ++ skipn (Z.to_nat index + 1) l.
End EntityArray.

(** ** The World *)

Definition quadtreeCapacity : Z := 4.
Definition DEFAULT_LAYER_ID : string := "DEFAULT".

Module World.
Section WithQuadtree.

(** The Quadtree class, its constructor [new Quadtree(boundary, capacity)]
    and the heap through which [entity.pos] is read.  A call that leaves
    [layerId] out passes [DEFAULT_LAYER_ID]. *)
Context {Quadtree : Type} {Quadtree_storage : EntityStorage Quadtree}.
Variable new_Quadtree : Rectangle.t -> Z -> Quadtree.
Variable pos : Entity -> Vector.t.

(** What the engine can allocate, see [JS.new_ArrayBuffer]. *)
Variable allocatable : Z -> bool.

(** [type Layer = { entities: Set<Entity>; qtree: Quadtree }] *)
Record Layer := mkLayer { layer_entities : EntitySet.t; qtree : Quadtree }.

Record t := mk {
  width : Z;
  height : Z;
  data : JS.ArrayBuffer;           (* [grid] is the Uint32Array view of it *)
  entities : list Entity;
  entityLayers : StringMap.t Layer
}.

Definition with_data (W : t) (d : JS.ArrayBuffer) : t :=
  mk (width W) (height W) d (entities W) (entityLayers W).

Definition constructor (width height : Z) (entities : option (list Entity))
    (worldData : option JS.ArrayBuffer) : JS.Error + t :=
  let entities := match entities with Some l => l | None => [] end in
  let entityLayers := [] in
  let byteLength := width * height * 4 in
  let data :=
    match worldData with
    | Some worldData =>
        if negb (JS.byteLength worldData =? byteLength)
        then inl JS.SizeMismatch
        else inr worldData
    | None => JS.new_ArrayBuffer allocatable byteLength
    end in
  match data with
  | inl err => inl err
  | inr data =>
      if JS.Uint32Array_viewable data
      then inr (mk width height data entities entityLayers)
      else inl JS.RangeError
  end.

Definition insert (W : t) (entity : Entity) (layerId : string) : t :=
  let '(layer, layers) :=
    match StringMap.get layerId (entityLayers W) with
    | Some layer => (layer, entityLayers W)
    | None =>
        let entities := [] in
        let qtree :=
          new_Quadtree
            (Rectangle.mk (inject_Z (width W) / 2) (inject_Z (height W) / 2)
                          (inject_Z (width W) / 2) (inject_Z (height W) / 2))
            quadtreeCapacity in
        let layer := mkLayer entities qtree in
        (layer, StringMap.set layerId layer (entityLayers W))
    end in
  let layer :=
    mkLayer (EntitySet.add entity (layer_entities layer))
            (snd (storage_insert entity (qtree layer))) in
  mk (width W) (height W) (data W)
     (entities W ++ [entity])
     (StringMap.set layerId layer layers).

Definition remove (W : t) (entity : Entity) (layerId : string)
  : option Entity * t :=
  let index := EntityArray.indexOf entity (entities W) in
  let entities :=
    if -1 <? index then EntityArray.splice1 index (entities W)
    else entities W in
  match StringMap.get layerId (entityLayers W) with
  | None =>
      (None, mk (width W) (height W) (data W) entities (entityLayers W))
  | Some layer =>
      let layer :=
        mkLayer (EntitySet.delete entity (layer_entities layer))
                (snd (storage_remove entity (qtree layer))) in
      (Some entity,
       mk (width W) (height W) (data W) entities
          (StringMap.set layerId layer (entityLayers W)))
  end.

Definition update (W : t) : t :=
  mk (width W) (height W) (data W) (entities W)
     (map (fun kv : string * Layer =>
             let layer := snd kv in
             (fst kv,
              mkLayer (layer_entities layer)
                (fold_left (fun q entity => snd (storage_insert entity q))
                           (layer_entities layer)
                           (storage_clear (qtree layer)))))
          (entityLayers W)).

(** [qtree.query(range)]: the accumulator starts empty. *)
Definition query (W : t) (range : Rectangle.t) (layerId : string)
  : list Entity :=
  if String.eqb layerId "ALL" then
    fold_left (fun found layer => found ++ storage_query range [] (qtree layer))
              (StringMap.values (entityLayers W)) []
  else
    match StringMap.get layerId (entityLayers W) with
    | Some layer => storage_query range [] (qtree layer)
    | None => []
    end.

Definition nearby (W : t) (entity : Entity) (radius : Q) (layerId : string)
  : list Entity :=
  query W
    (Rectangle.mk (Vector.x (pos entity)) (Vector.y (pos entity)) radius radius)
    layerId.

Definition getTileRaw (W : t) (x y : Z) : option Tile :=
  JS.Uint32Array_get (data W) (y * width W + x).

(** In [tile & mask] an [undefined] tile counts as 0. *)
Definition tile_operand (tile : option Tile) : Tile :=
  match tile with Some tile => tile | None => 0 end.

Definition getTileProp (W : t) (x y : Z) (property : Property) : Z :=
  getBitValue (tile_operand (getTileRaw W x y)) property.

Definition getTile (W : t) (x y : Z) : list Z :=
  let tile := tile_operand (getTileRaw W x y) in
  map (fun p => JS.ushr (JS.band tile (BitField.mask (bitScheme p)))
                        (BitField.offset (bitScheme p)))
      [entityType; entityId; terrain; homeTrail; foodTrail].

Definition setTileRaw (W : t) (x y : Z) (value : Z) : t :=
  with_data W (JS.Uint32Array_set (data W) (y * width W + x) value).

Definition setTileProp (W : t) (x y : Z) (property : Property) (value : Z)
  : t :=
  let tile := getTileRaw W x y in
  setTileRaw W x y (setBitValue (tile_operand tile) property value).

(** The grid buffer holds one 32-bit tile per cell: the invariant the
    constructor establishes and every method keeps ([width], [height] and
    the size of [data] never change). *)
Definition sized (W : t) : Prop :=
  JS.byteLength (data W) = width W * height W * 4.

(** The precondition of the tile accessors. *)
Definition in_bounds (W : t) (x y : Z) : Prop :=
  0 <= x < width W /\ 0 <= y < height W.

End WithQuadtree.
Arguments t : clear implicits.
Arguments Layer : clear implicits.
End World.

(** ** A linear-scan storage

    The smallest implementation of [EntityStorage]: the points of a
    boundary kept in a list.  It stands where the Quadtree would, to run the
    World on concrete inputs. *)

Module ListStorage.

Record t := mk { boundary : Rectangle.t; points : list Entity }.

Section WithHeap.
Variable pos : Entity -> Vector.t.

Definition insert (point : Entity) (s : t) : bool * t :=
  if Rectangle.contains (boundary s) (pos point)
  then (true, mk (boundary s) (points s ++ [point]))
  else (false, s).

Definition remove (target : Entity) (s : t) : option Entity * t :=
  let index := EntityArray.indexOf target (points s) in
  if -1 <? index
  then (Some target, mk (boundary s) (EntityArray.splice1 index (points s)))
  else (None, s).

Definition clear (s : t) : t := mk (boundary s) [].

Definition query (range : Rectangle.t) (found : list Entity) (s : t)
  : list Entity :=
  found ++ filter (fun e => Rectangle.contains range (pos e)) (points s).

Definition storage : EntityStorage t :=
  Build_EntityStorage t insert remove clear query.
End WithHeap.

Definition create (boundary : Rectangle.t) (capacity : Z) : t := mk boundary [].

End ListStorage.

(** ** Concrete worlds *)

Module Sample.

(** Entity [n] stands at [(n, n)]. *)
Definition pos (e : Entity) : Vector.t :=
  Vector.mk (inject_Z (Z.pos e)) (inject_Z (Z.pos e)).

Definition storage : EntityStorage ListStorage.t := ListStorage.storage pos.

Definition World := World.t ListStorage.t.

Definition insert : World -> Entity -> string -> World :=
  World.insert (Quadtree_storage := storage) ListStorage.create.

Definition remove : World -> Entity -> string -> option Entity * World :=
  World.remove (Quadtree_storage := storage).

Definition query : World -> Rectangle.t -> string -> list Entity :=
  World.query (Quadtree_storage := storage).

Definition nearby : World -> Entity -> Q -> string -> list Entity :=
  World.nearby (Quadtree_storage := storage) pos.

(** An engine that allocates blocks of up to [2^31] bytes. *)
Definition allocatable (n : Z) : bool := n <=? 2 ^ 31.

(** [new World(5, 5)] *)
Definition world5 : JS.Error + World :=
  World.constructor allocatable 5 5 None None.

(** The world [new World(5, 5)] builds: 100 zero bytes, no entity, no layer. *)
Definition empty5 : World :=
  World.mk 5 5 (repeat Byte.x00 100) [] [].

(** The tests' buffer: tile [i] holds the value [i]. *)
Definition indexed_data : JS.ArrayBuffer :=
  flat_map (fun i => le_split 4 (Z.of_nat i)) (seq 0 25).

Definition indexed5 : World := World.mk 5 5 indexed_data [] [].

End Sample.

(** ** [enum TILE_PROPS]: the positions in the array [getTile] returns *)

Inductive TILE_PROPS :=
  ENTITY_TYPE | ENTITY_ID | TERRAIN | HOME_TRAIL | FOOD_TRAIL.

Definition TILE_PROPS_value (k : TILE_PROPS) : nat :=
  match k with
  | ENTITY_TYPE => 0
  | ENTITY_ID => 1
  | TERRAIN => 2
  | HOME_TRAIL => 3
  | FOOD_TRAIL => 4
  end.

(** [array[index]]: [undefined] past the end. *)
Definition array_get {A : Type} (l : list A) (index : nat) : option A :=
  nth_error l index.

(** ** The worlds a program can build

    A world comes out of the constructor and is then changed by the methods
    of the class only. *)

Section Reachable.
Context {Quadtree : Type} {Quadtree_storage : EntityStorage Quadtree}.
Variable new_Quadtree : Rectangle.t -> Z -> Quadtree.

Inductive reachable : World.t Quadtree -> Prop :=
| reach_constructor allocatable w h ents worldData W :
    World.constructor allocatable w h ents worldData = inr W -> reachable W
| reach_insert W e layerId :
    reachable W -> reachable (World.insert new_Quadtree W e layerId)
| reach_remove W e layerId :
    reachable W -> reachable (snd (World.remove W e layerId))
| reach_update W :
    reachable W -> reachable (World.update W)
| reach_setTileRaw W x y value :
    reachable W -> reachable (World.setTileRaw W x y value)
| reach_setTileProp W x y property value :
    reachable W -> reachable (World.setTileProp W x y property value).

(** Layer names are distinct and no membership set holds an entity twice:
    what [Map] and [Set] guarantee, to be kept by the list model. *)
Definition containers_ok (W : World.t Quadtree) : Prop :=
  NoDup (map fst (World.entityLayers W))
  /\ Forall (fun kv => NoDup (World.layer_entities (snd kv)))
            (World.entityLayers W).

End Reachable.

(* ================================================================== *)
(** * Part II: properties                                              *)
(* ================================================================== *)

(** ** The 32-bit operators, bit by bit

    Below bit 32 the JavaScript operators act on the bits of their
    operands as the mathematical ones do; the sign only shows above. *)

Lemma ToInt32_testbit n i :
  i < 32 -> Z.testbit (JS.ToInt32 n) i = Z.testbit n i.
Proof.
  intros Hi. unfold JS.ToInt32.
  rewrite <- (Z.mod_pow2_bits_low n 32 i) by lia.
  destruct (2 ^ 31 <=? n mod 2 ^ 32); [|reflexivity].
  rewrite <- (Z.mod_pow2_bits_low (n mod 2 ^ 32 - 2 ^ 32) 32 i) by lia.
  f_equal.
  rewrite Zminus_mod, Z.mod_same, Z.sub_0_r, !Z.mod_mod by lia. reflexivity.
Qed.

Lemma ToUint32_testbit n i :
  Z.testbit (JS.ToUint32 n) i = (i <? 32) && Z.testbit n i.
Proof. unfold JS.ToUint32. apply Z.testbit_mod_pow2. lia. Qed.

Lemma ToUint32_range n : 0 <= JS.ToUint32 n < 2 ^ 32.
Proof. unfold JS.ToUint32. apply Z.mod_pos_bound. lia. Qed.

Lemma ToUint32_small n : 0 <= n < 2 ^ 32 -> JS.ToUint32 n = n.
Proof. intros. unfold JS.ToUint32. apply Z.mod_small. assumption. Qed.

Lemma ToInt32_range n : - 2 ^ 31 <= JS.ToInt32 n < 2 ^ 31.
Proof.
  unfold JS.ToInt32.
  pose proof (Z.mod_pos_bound n (2 ^ 32) ltac:(lia)).
  destruct (Z.leb_spec (2 ^ 31) (n mod 2 ^ 32)); lia.
Qed.

Lemma band_testbit a b i :
  i < 32 -> Z.testbit (JS.band a b) i = Z.testbit a i && Z.testbit b i.
Proof.
  intros. unfold JS.band.
  rewrite Z.land_spec, !ToInt32_testbit by lia. reflexivity.
Qed.

Lemma bor_testbit a b i :
  i < 32 -> Z.testbit (JS.bor a b) i = Z.testbit a i || Z.testbit b i.
Proof.
  intros. unfold JS.bor.
  rewrite Z.lor_spec, !ToInt32_testbit by lia. reflexivity.
Qed.

Lemma bnot_testbit a i :
  0 <= i < 32 -> Z.testbit (JS.bnot a) i = negb (Z.testbit a i).
Proof.
  intros. unfold JS.bnot.
  rewrite Z.lnot_spec, ToInt32_testbit by lia. reflexivity.
Qed.

Lemma shl_testbit a n i :
  0 <= n < 32 -> 0 <= i < 32 -> Z.testbit (JS.shl a n) i = Z.testbit a (i - n).
Proof.
  intros Hn Hi. unfold JS.shl, JS.ToUint32.
  rewrite (Z.mod_small n (2 ^ 32)), (Z.mod_small n 32) by lia.
  rewrite ToInt32_testbit, Z.shiftl_spec, ToInt32_testbit by lia. reflexivity.
Qed.

Lemma ushr_testbit a n j :
  0 <= n < 32 -> 0 <= j ->
  Z.testbit (JS.ushr a n) j = (j + n <? 32) && Z.testbit a (j + n).
Proof.
  intros Hn Hj. unfold JS.ushr.
  replace (JS.ToUint32 n mod 32) with n
    by (unfold JS.ToUint32; rewrite (Z.mod_small n (2 ^ 32)), Z.mod_small; lia).
  rewrite Z.shiftr_spec, ToUint32_testbit by lia. reflexivity.
Qed.

(** ** The bit scheme *)

(** Each mask is [length] ones shifted to [offset]. *)
Lemma mask_ones p :
  BitField.mask (bitScheme p)
  = Z.shiftl (Z.ones (BitField.length (bitScheme p)))
             (BitField.offset (bitScheme p)).
Proof. destruct p; reflexivity. Qed.

Lemma scheme_bounds p :
  0 <= BitField.offset (bitScheme p)
  /\ 0 < BitField.length (bitScheme p)
  /\ BitField.offset (bitScheme p) + BitField.length (bitScheme p) <= 24.
Proof. destruct p; cbn; lia. Qed.

Lemma mask_testbit p i :
  Z.testbit (BitField.mask (bitScheme p)) i = in_field p i.
Proof.
  pose proof (scheme_bounds p) as (Ho & Hl & Hs).
  rewrite mask_ones. unfold in_field.
  destruct (Z.leb_spec (BitField.offset (bitScheme p)) i) as [Hle|Hlt]; cbn.
  - rewrite Z.shiftl_spec, Z.testbit_ones_nonneg by lia.
    destruct (Z.ltb_spec (i - BitField.offset (bitScheme p))
                         (BitField.length (bitScheme p)));
    destruct (Z.ltb_spec i (BitField.offset (bitScheme p)
                            + BitField.length (bitScheme p))); lia || reflexivity.
  - destruct (Z.ltb_spec i 0).
    + apply Z.testbit_neg_r; lia.
    + rewrite Z.shiftl_spec by lia. apply Z.testbit_neg_r; lia.
Qed.

(** The five fields are pairwise disjoint: the invariant of the data model. *)
Lemma fields_disjoint p q i :
  p <> q -> in_field p i = true -> in_field q i = false.
Proof.
  intros Hpq. unfold in_field.
  destruct p, q; try congruence; cbn; lia.
Qed.

Lemma getBitValue_testbit tile p j :
  0 <= j ->
  Z.testbit (getBitValue tile p) j
  = (j <? BitField.length (bitScheme p))
    && Z.testbit tile (j + BitField.offset (bitScheme p)).
Proof.
  intros Hj. pose proof (scheme_bounds p) as (Ho & Hl & Hs).
  unfold getBitValue. cbv zeta.
  rewrite ushr_testbit by lia.
  destruct (Z.ltb_spec (j + BitField.offset (bitScheme p)) 32) as [Hlt|Hge]; cbn.
  - rewrite band_testbit, mask_testbit by lia. unfold in_field.
    destruct (Z.ltb_spec j (BitField.length (bitScheme p)));
    destruct (Z.leb_spec (BitField.offset (bitScheme p))
                         (j + BitField.offset (bitScheme p)));
    destruct (Z.ltb_spec (j + BitField.offset (bitScheme p))
                (BitField.offset (bitScheme p) + BitField.length (bitScheme p)));
    cbn; try lia; rewrite ?andb_true_r, ?andb_false_r; reflexivity.
  - destruct (Z.ltb_spec j (BitField.length (bitScheme p))); [lia|reflexivity].
Qed.

Lemma setBitValue_testbit tile p value i :
  0 <= i < 32 ->
  Z.testbit (setBitValue tile p value) i
  = Z.testbit value (i - BitField.offset (bitScheme p))
    || (Z.testbit tile i && negb (in_field p i)).
Proof.
  intros Hi. pose proof (scheme_bounds p) as (Ho & Hl & Hs).
  unfold setBitValue. cbv zeta.
  rewrite bor_testbit, shl_testbit, band_testbit, bnot_testbit, mask_testbit
    by lia.
  reflexivity.
Qed.

(** ** Reading a field after writing one *)

Lemma getBitValue_setBitValue_same tile p value :
  getBitValue (JS.ToUint32 (setBitValue tile p value)) p
  = value mod 2 ^ BitField.length (bitScheme p).
Proof.
  pose proof (scheme_bounds p) as (Ho & Hl & Hs).
  apply Z.bits_inj'. intros j Hj.
  rewrite getBitValue_testbit, ToUint32_testbit, Z.testbit_mod_pow2 by lia.
  destruct (Z.ltb_spec j (BitField.length (bitScheme p))) as [Hlt|Hge];
    [|reflexivity]. cbn.
  rewrite setBitValue_testbit by lia.
  replace (in_field p (j + BitField.offset (bitScheme p))) with true
    by (unfold in_field; lia).
  replace (j + BitField.offset (bitScheme p) <? 32) with true by lia.
  rewrite andb_false_r, orb_false_r. cbn. f_equal. lia.
Qed.

Lemma getBitValue_setBitValue_other tile p q value :
  q <> p ->
  getBitValue (JS.ToUint32 (setBitValue tile p value)) q
  = Z.lor (getBitValue tile q)
      (Z.shiftr value (BitField.offset (bitScheme q)
                       - BitField.offset (bitScheme p))
       mod 2 ^ BitField.length (bitScheme q)).
Proof.
  intros Hqp.
  pose proof (scheme_bounds p) as (Ho & Hl & Hs).
  pose proof (scheme_bounds q) as (Ho' & Hl' & Hs').
  apply Z.bits_inj'. intros j Hj.
  rewrite Z.lor_spec, !getBitValue_testbit, ToUint32_testbit,
    Z.testbit_mod_pow2 by lia.
  destruct (Z.ltb_spec j (BitField.length (bitScheme q))) as [Hlt|Hge];
    [|reflexivity]. cbn.
  rewrite setBitValue_testbit, Z.shiftr_spec by lia.
  replace (in_field p (j + BitField.offset (bitScheme q))) with false
    by (symmetry; apply (fields_disjoint q p); [assumption|unfold in_field; lia]).
  replace (j + BitField.offset (bitScheme q) <? 32) with true by lia.
  cbn. rewrite andb_true_r, orb_comm. do 2 f_equal. lia.
Qed.

(** A value that fits its field reaches no other field. *)
Lemma no_spill p q value :
  q <> p -> 0 <= value < 2 ^ BitField.length (bitScheme p) ->
  Z.shiftr value (BitField.offset (bitScheme q) - BitField.offset (bitScheme p))
  mod 2 ^ BitField.length (bitScheme q) = 0.
Proof.
  intros Hqp Hv.
  pose proof (scheme_bounds p) as (Ho & Hl & Hs).
  pose proof (scheme_bounds q) as (Ho' & Hl' & Hs').
  apply Z.bits_inj'. intros j Hj.
  rewrite Z.testbit_mod_pow2, Z.shiftr_spec, Z.bits_0 by lia.
  destruct (Z.ltb_spec j (BitField.length (bitScheme q))) as [Hlt|Hge];
    [|reflexivity]. cbn.
  set (k := j + (BitField.offset (bitScheme q) - BitField.offset (bitScheme p))).
  destruct (Z.ltb_spec k 0) as [Hneg|Hpos].
  - apply Z.testbit_neg_r. assumption.
  - assert (Hk : BitField.length (bitScheme p) <= k).
    { assert (Hin : in_field q (j + BitField.offset (bitScheme q)) = true)
        by (unfold in_field; lia).
      apply (fields_disjoint q p) in Hin; [|assumption].
      unfold in_field in Hin. subst k. lia. }
    rewrite <- (Z.mod_small value (2 ^ BitField.length (bitScheme p))) by lia.
    apply Z.mod_pow2_bits_high. lia.
Qed.

(** No bit of a written value reaches a field below the written one. *)
Lemma no_spill_down p q value :
  BitField.offset (bitScheme q) < BitField.offset (bitScheme p) ->
  Z.shiftr value (BitField.offset (bitScheme q) - BitField.offset (bitScheme p))
  mod 2 ^ BitField.length (bitScheme q) = 0.
Proof.
  intros Hlt.
  assert (Hend : BitField.offset (bitScheme q) + BitField.length (bitScheme q)
                 <= BitField.offset (bitScheme p))
    by (destruct p, q; cbn in *; lia).
  pose proof (scheme_bounds q) as (Ho & Hl & Hs).
  apply Z.bits_inj'. intros j Hj.
  rewrite Z.testbit_mod_pow2, Z.shiftr_spec, Z.bits_0 by lia.
  destruct (Z.ltb_spec j (BitField.length (bitScheme q))) as [Hj'|Hj'];
    [|reflexivity]. cbn [andb].
  apply Z.testbit_neg_r. lia.
Qed.

(** ** The typed-array view *)

Lemma Uint32Array_set_byteLength b i v :
  JS.byteLength (JS.Uint32Array_set b i v) = JS.byteLength b.
Proof.
  unfold JS.Uint32Array_set, JS.Uint32Array_length, JS.byteLength.
  destruct (Z.leb_spec 0 i); [|reflexivity].
  destruct (Z.ltb_spec i (Z.of_nat (List.length b) / 4)); [|reflexivity].
  cbn [andb].
  rewrite !length_app, length_firstn, length_skipn, length_le_split.
  pose proof (Z.mul_div_le (Z.of_nat (List.length b)) 4 ltac:(lia)). lia.
Qed.

Lemma Uint32Array_get_defined b i :
  0 <= i < JS.Uint32Array_length b ->
  exists tile, JS.Uint32Array_get b i = Some tile.
Proof.
  intros Hi. unfold JS.Uint32Array_get.
  replace ((0 <=? i) && (i <? JS.Uint32Array_length b)) with true by lia.
  eauto.
Qed.

Lemma Uint32Array_get_undefined b i :
  ~ 0 <= i < JS.Uint32Array_length b -> JS.Uint32Array_get b i = None.
Proof.
  intros Hi. unfold JS.Uint32Array_get.
  replace ((0 <=? i) && (i <? JS.Uint32Array_length b)) with false by lia.
  reflexivity.
Qed.

Lemma Uint32Array_set_dropped b i v :
  ~ 0 <= i < JS.Uint32Array_length b -> JS.Uint32Array_set b i v = b.
Proof.
  intros Hi. unfold JS.Uint32Array_set.
  replace ((0 <=? i) && (i <? JS.Uint32Array_length b)) with false by lia.
  reflexivity.
Qed.

Lemma Uint32Array_get_set b i v :
  0 <= i < JS.Uint32Array_length b ->
  JS.Uint32Array_get (JS.Uint32Array_set b i v) i = Some (JS.ToUint32 v).
Proof.
  intros Hi.
  assert (Hlen : JS.Uint32Array_length (JS.Uint32Array_set b i v)
                 = JS.Uint32Array_length b)
    by (unfold JS.Uint32Array_length; now rewrite Uint32Array_set_byteLength).
  unfold JS.Uint32Array_get. rewrite Hlen.
  replace ((0 <=? i) && (i <? JS.Uint32Array_length b)) with true by lia.
  unfold JS.Uint32Array_set.
  replace ((0 <=? i) && (i <? JS.Uint32Array_length b)) with true by lia.
  unfold JS.Uint32Array_length, JS.byteLength in Hi.
  pose proof (Z.mul_div_le (Z.of_nat (List.length b)) 4 ltac:(lia)).
  f_equal.
  rewrite skipn_app, skipn_all2 by (rewrite length_firstn; lia).
  rewrite length_firstn.
  replace (Z.to_nat (4 * i) - Nat.min (Z.to_nat (4 * i)) (List.length b))%nat
    with 0%nat by lia.
  cbn [skipn app].
  rewrite firstn_app, firstn_all2 by (rewrite length_le_split; lia).
  rewrite length_le_split. cbn [Nat.sub firstn]. rewrite app_nil_r.
  rewrite le_combine_split.
  change (Z.of_nat 4 * 8) with 32. apply Z.mod_small, ToUint32_range.
Qed.

(** Four bytes read beside a four-byte window do not depend on it. *)
Lemma firstn_skipn_beside {A} (pre old new post : list A) (n : nat) :
  List.length old = 4%nat -> List.length new = 4%nat ->
  (n + 4 <= List.length pre \/ List.length pre + 4 <= n)%nat ->
  firstn 4 (skipn n (pre ++ new ++ post))
  = firstn 4 (skipn n (pre ++ old ++ post)).
Proof.
  intros Hold Hnew [Hbefore|Hafter].
  - rewrite !skipn_app, !firstn_app, !length_skipn.
    replace (4 - (List.length pre - n))%nat with 0%nat by lia.
    reflexivity.
  - rewrite !skipn_app, Hold, Hnew.
    rewrite !(skipn_all2 pre), (skipn_all2 old), (skipn_all2 new) by lia.
    reflexivity.
Qed.

Lemma Uint32Array_get_set_other b i j v :
  i <> j ->
  JS.Uint32Array_get (JS.Uint32Array_set b i v) j = JS.Uint32Array_get b j.
Proof.
  intros Hij.
  assert (Hlen : JS.Uint32Array_length (JS.Uint32Array_set b i v)
                 = JS.Uint32Array_length b)
    by (unfold JS.Uint32Array_length; now rewrite Uint32Array_set_byteLength).
  unfold JS.Uint32Array_get. rewrite Hlen.
  destruct ((0 <=? j) && (j <? JS.Uint32Array_length b)) eqn:Hj; [|reflexivity].
  unfold JS.Uint32Array_set.
  destruct ((0 <=? i) && (i <? JS.Uint32Array_length b)) eqn:Hi; [|reflexivity].
  unfold JS.Uint32Array_length, JS.byteLength in *.
  pose proof (Z.mul_div_le (Z.of_nat (List.length b)) 4 ltac:(lia)).
  do 2 f_equal.
  set (pre := firstn (Z.to_nat (4 * i)) b).
  set (old := firstn 4 (skipn (Z.to_nat (4 * i)) b)).
  set (post := skipn (Z.to_nat (4 * i) + 4) b).
  assert (Hb : b = pre ++ old ++ post).
  { subst pre old post.
    rewrite <- (firstn_skipn (Z.to_nat (4 * i)) b) at 1. f_equal.
    rewrite <- (firstn_skipn 4 (skipn (Z.to_nat (4 * i)) b)) at 1. f_equal.
    rewrite skipn_skipn. f_equal. lia. }
  rewrite Hb at 1.
  apply firstn_skipn_beside.
  - subst old. rewrite length_firstn, length_skipn. lia.
  - apply length_le_split.
  - subst pre. rewrite length_firstn. lia.
Qed.

Lemma Uint32Array_get_range b i tile :
  JS.Uint32Array_get b i = Some tile -> 0 <= tile < 2 ^ 32.
Proof.
  unfold JS.Uint32Array_get.
  destruct ((0 <=? i) && (i <? JS.Uint32Array_length b)); [|discriminate].
  intros Heq.
  assert (Htile : tile = le_combine (firstn 4 (skipn (Z.to_nat (4 * i)) b)))
    by congruence.
  rewrite Htile. clear Heq Htile.
  pose proof (le_combine_bound (firstn 4 (skipn (Z.to_nat (4 * i)) b))) as Hb.
  pose proof (firstn_le_length 4 (skipn (Z.to_nat (4 * i)) b)) as Hl.
  assert (2 ^ (8 * Z.of_nat (List.length (firstn 4 (skipn (Z.to_nat (4 * i)) b))))
          <= 2 ^ 32) by (apply Z.pow_le_mono_r; lia).
  lia.
Qed.

(** ** Tiles of a world *)

Section Tiles.
Context {Quadtree : Type}.
Implicit Type W : World.t Quadtree.

Lemma sized_length W :
  World.sized W ->
  JS.Uint32Array_length (World.data W) = World.width W * World.height W.
Proof.
  unfold World.sized, JS.Uint32Array_length. intros ->.
  apply Z.div_mul. lia.
Qed.

Lemma in_bounds_index W x y :
  World.in_bounds W x y ->
  0 <= y * World.width W + x < World.width W * World.height W.
Proof. unfold World.in_bounds. nia. Qed.

Lemma setTileRaw_sized W x y v :
  World.sized W -> World.sized (World.setTileRaw W x y v).
Proof.
  unfold World.sized, World.setTileRaw, World.with_data. cbn.
  rewrite Uint32Array_set_byteLength. trivial.
Qed.

Lemma getTileRaw_defined W x y :
  World.sized W -> World.in_bounds W x y ->
  exists tile, World.getTileRaw W x y = Some tile.
Proof.
  intros Hs Hb. apply Uint32Array_get_defined.
  rewrite sized_length by assumption. now apply in_bounds_index.
Qed.

Lemma getTileRaw_setTileRaw W x y v :
  World.sized W -> World.in_bounds W x y ->
  World.getTileRaw (World.setTileRaw W x y v) x y = Some (JS.ToUint32 v).
Proof.
  intros Hs Hb. unfold World.getTileRaw, World.setTileRaw, World.with_data. cbn.
  apply Uint32Array_get_set.
  rewrite sized_length by assumption. now apply in_bounds_index.
Qed.

(** What [setTileProp] leaves in the cell. *)
Lemma getTileRaw_setTileProp W x y p v tile :
  World.getTileRaw W x y = Some tile ->
  World.getTileRaw (World.setTileProp W x y p v) x y
  = Some (JS.ToUint32 (setBitValue tile p v)).
Proof.
  intros Ht. unfold World.setTileProp. rewrite Ht. cbn [World.tile_operand].
  unfold World.getTileRaw, World.setTileRaw, World.with_data in *. cbn.
  apply Uint32Array_get_set.
  unfold JS.Uint32Array_get in Ht.
  destruct (0 <=? y * World.width W + x) eqn:H0; [|discriminate].
  destruct (y * World.width W + x <? JS.Uint32Array_length (World.data W)) eqn:H1;
    [|discriminate].
  lia.
Qed.

Lemma getTileProp_setTileProp W x y p q v tile :
  World.getTileRaw W x y = Some tile ->
  World.getTileProp (World.setTileProp W x y p v) x y q
  = getBitValue (JS.ToUint32 (setBitValue tile p v)) q.
Proof.
  intros Ht. unfold World.getTileProp.
  now rewrite (getTileRaw_setTileProp W x y p v tile Ht).
Qed.

Lemma setTileProp_sized W x y p v :
  World.sized W -> World.sized (World.setTileProp W x y p v).
Proof. apply setTileRaw_sized. Qed.

(** C2.  Raw round trip: in bounds, [setTileRaw(x, y, v)] followed by
    [getTileRaw(x, y)] returns [v], for every unsigned 32-bit [v]. *)
Theorem raw_round_trip W x y v :
  World.sized W -> World.in_bounds W x y -> 0 <= v < 2 ^ 32 ->
  World.getTileRaw (World.setTileRaw W x y v) x y = Some v.
Proof.
  intros Hs Hb Hv.
  rewrite getTileRaw_setTileRaw by assumption.
  now rewrite ToUint32_small.
Qed.

(** C1.  Field round trip and isolation: in bounds, whatever the tile
    holds, writing a value [v] of the field's range with [setTileProp]
    makes [getTileProp] of that field return [v] and leaves what
    [getTileProp] returns for every other field of the tile as it was. *)
Theorem field_round_trip_isolation W x y p v :
  World.sized W -> World.in_bounds W x y ->
  0 <= v < 2 ^ BitField.length (bitScheme p) ->
  World.getTileProp (World.setTileProp W x y p v) x y p = v
  /\ forall q, q <> p ->
       World.getTileProp (World.setTileProp W x y p v) x y q
       = World.getTileProp W x y q.
Proof.
  intros Hs Hb Hv.
  destruct (getTileRaw_defined W x y Hs Hb) as [tile Ht].
  split.
  - rewrite (getTileProp_setTileProp W x y p p v tile Ht).
    rewrite getBitValue_setBitValue_same. now apply Z.mod_small.
  - intros q Hq.
    rewrite (getTileProp_setTileProp W x y p q v tile Ht).
    rewrite getBitValue_setBitValue_other, no_spill by assumption.
    unfold World.getTileProp. rewrite Ht. apply Z.lor_0_r.
Qed.

Lemma setBitValue_math tile p v :
  JS.ToUint32 (setBitValue tile p v)
  = JS.ToUint32
      (Z.lor (Z.shiftl v (BitField.offset (bitScheme p)))
             (Z.land tile (Z.lnot (BitField.mask (bitScheme p))))).
Proof.
  apply Z.bits_inj'. intros i Hi.
  rewrite !ToUint32_testbit.
  destruct (Z.ltb_spec i 32) as [Hlt|Hge]; [|reflexivity]. cbn [andb].
  rewrite setBitValue_testbit by lia.
  rewrite Z.lor_spec, Z.shiftl_spec, Z.land_spec, Z.lnot_spec, mask_testbit
    by lia.
  reflexivity.
Qed.

(** C4, as the code has it.  [setTileProp] checks nothing and always
    succeeds: on a tile of the grid holding [tile] it stores
    [(v << offset) | (tile & ~mask)] as an unsigned 32-bit word.  The field
    itself then reads [v mod 2^length]; every other field [q] reads its old
    value OR-ed with the bits of [v] that fall on it,
    [(v >> (offset q - offset p)) mod 2^(length q)]: excess bits are OR-ed
    into the fields above, not written over them, and the fields below are
    unchanged. *)
Theorem setTileProp_unchecked W x y p v :
  World.sized W -> World.in_bounds W x y ->
  2 ^ BitField.length (bitScheme p) <= v ->
  exists tile,
    World.getTileRaw W x y = Some tile
    /\ World.getTileRaw (World.setTileProp W x y p v) x y
       = Some (JS.ToUint32
                 (Z.lor (Z.shiftl v (BitField.offset (bitScheme p)))
                        (Z.land tile (Z.lnot (BitField.mask (bitScheme p))))))
    /\ World.getTileProp (World.setTileProp W x y p v) x y p
       = v mod 2 ^ BitField.length (bitScheme p)
    /\ (forall q, q <> p ->
          World.getTileProp (World.setTileProp W x y p v) x y q
          = Z.lor (World.getTileProp W x y q)
              (Z.shiftr v (BitField.offset (bitScheme q)
                           - BitField.offset (bitScheme p))
               mod 2 ^ BitField.length (bitScheme q)))
    /\ (forall q,
          BitField.offset (bitScheme q) < BitField.offset (bitScheme p) ->
          World.getTileProp (World.setTileProp W x y p v) x y q
          = World.getTileProp W x y q).
Proof.
  intros Hs Hb _.
  destruct (getTileRaw_defined W x y Hs Hb) as [tile Ht].
  assert (Hother : forall q, q <> p ->
            World.getTileProp (World.setTileProp W x y p v) x y q
            = Z.lor (World.getTileProp W x y q)
                (Z.shiftr v (BitField.offset (bitScheme q)
                             - BitField.offset (bitScheme p))
                 mod 2 ^ BitField.length (bitScheme q))).
  { intros q Hq.
    rewrite (getTileProp_setTileProp W x y p q v tile Ht).
    rewrite getBitValue_setBitValue_other by assumption.
    unfold World.getTileProp. now rewrite Ht. }
  exists tile. split; [assumption|]. split; [|split; [|split]].
  - rewrite (getTileRaw_setTileProp W x y p v tile Ht).
    now rewrite setBitValue_math.
  - rewrite (getTileProp_setTileProp W x y p p v tile Ht).
    apply getBitValue_setBitValue_same.
  - exact Hother.
  - intros q Hlt.
    rewrite Hother by (intros ->; lia).
    rewrite no_spill_down by assumption. apply Z.lor_0_r.
Qed.

(** C7.  The vectors of the test suite: a tile holding [0xe009] holds
    [0xe005] after [setTileProp(entityType, 5)]; on a tile holding [0x20000]
    [getTileProp(terrain)] is 2; on a tile holding [0xa]
    [getTileProp(entityType)] is 10. *)
Theorem tile_codec_vectors W x y :
  (World.getTileRaw W x y = Some 0xe009 ->
   World.getTileRaw (World.setTileProp W x y entityType 5) x y = Some 0xe005)
  /\ (World.getTileRaw W x y = Some 0x20000 ->
      World.getTileProp W x y terrain = 2)
  /\ (World.getTileRaw W x y = Some 0xa ->
      World.getTileProp W x y entityType = 10).
Proof.
  split; [|split]; intros Ht.
  - now rewrite (getTileRaw_setTileProp W x y entityType 5 _ Ht).
  - unfold World.getTileProp. now rewrite Ht.
  - unfold World.getTileProp. now rewrite Ht.
Qed.

(** C9.  The raw accessors check no bound.  A coordinate with
    [x >= width] whose flat index [y * width + x] is still inside the grid
    reads and overwrites the cell at that index, which (for a positive
    width) is the in-bounds cell of a later row; a coordinate whose flat
    index is outside the grid reads [undefined] and its write changes
    nothing.  Neither raises an error. *)
Theorem raw_access_unchecked W x y v :
  World.sized W ->
  let i := y * World.width W + x in
  (World.width W <= x -> 0 <= i < World.width W * World.height W ->
     (exists tile, World.getTileRaw W x y = Some tile
                   /\ JS.Uint32Array_get (World.data W) i = Some tile)
     /\ JS.Uint32Array_get (World.data (World.setTileRaw W x y v)) i
        = Some (JS.ToUint32 v)
     /\ (0 < World.width W ->
         y < i / World.width W
         /\ World.in_bounds W (i mod World.width W) (i / World.width W)
         /\ World.getTileRaw W x y
            = World.getTileRaw W (i mod World.width W) (i / World.width W)
         /\ World.getTileRaw (World.setTileRaw W x y v)
              (i mod World.width W) (i / World.width W)
            = Some (JS.ToUint32 v)))
  /\ (~ 0 <= i < World.width W * World.height W ->
      World.getTileRaw W x y = None /\ World.setTileRaw W x y v = W).
Proof.
  intros Hs i. pose proof (sized_length W Hs) as Hlen. split.
  - intros Hx Hi.
    assert (Hget : exists tile, World.getTileRaw W x y = Some tile)
      by (apply Uint32Array_get_defined; rewrite Hlen; exact Hi).
    assert (Hset : JS.Uint32Array_get (World.data (World.setTileRaw W x y v)) i
                   = Some (JS.ToUint32 v))
      by (apply Uint32Array_get_set; rewrite Hlen; exact Hi).
    destruct Hget as [tile Ht].
    split; [exists tile; split; assumption|]. split; [assumption|].
    intros Hw.
    assert (Hflat : (i / World.width W) * World.width W + i mod World.width W = i)
      by (pose proof (Z.div_mod i (World.width W)); lia).
    pose proof (Z.mod_pos_bound i (World.width W) Hw) as Hmod.
    assert (Hrow : y < i / World.width W).
    { assert (y + 1 <= i / World.width W); [|lia].
      apply Z.div_le_lower_bound; [assumption|]. subst i. lia. }
    assert (Hrow' : i / World.width W < World.height W)
      by (apply Z.div_lt_upper_bound; lia).
    pose proof (Z.div_pos i (World.width W) ltac:(lia) Hw) as Hrow0.
    split; [assumption|]. split; [unfold World.in_bounds; lia|]. split.
    + unfold World.getTileRaw. now rewrite Hflat.
    + unfold World.getTileRaw.
      change (World.width (World.setTileRaw W x y v)) with (World.width W).
      rewrite Hflat. exact Hset.
  - intros Hi. split.
    + apply Uint32Array_get_undefined. now rewrite Hlen.
    + unfold World.setTileRaw, World.with_data.
      rewrite Uint32Array_set_dropped by now rewrite Hlen.
      now destruct W.
Qed.

End Tiles.

(** ** Construction *)

Section Construction.
Context {Quadtree : Type}.
Variable allocatable : Z -> bool.

Lemma new_ArrayBuffer_byteLength n b :
  JS.new_ArrayBuffer allocatable n = inr b ->
  JS.byteLength b = n /\ b = repeat Byte.x00 (Z.to_nat n).
Proof.
  unfold JS.new_ArrayBuffer, JS.byteLength.
  destruct (Z.ltb_spec n 0); [discriminate|].
  destruct (2 ^ 53 - 1 <? n); [discriminate|]. cbn [orb].
  destruct (allocatable n); [|discriminate].
  intros Heq. assert (b = repeat Byte.x00 (Z.to_nat n)) by congruence. subst b.
  rewrite repeat_length. split; [lia|reflexivity].
Qed.

Lemma viewable_multiple_of_4 (b : JS.ArrayBuffer) n :
  JS.byteLength b = n * 4 -> JS.Uint32Array_viewable b = true.
Proof.
  unfold JS.Uint32Array_viewable. intros ->.
  rewrite Z.mod_mul by lia. reflexivity.
Qed.

(** A world that the constructor returns is [sized]. *)
Lemma constructor_sized w h ents wd (W : World.t Quadtree) :
  World.constructor allocatable w h ents wd = inr W ->
  World.sized W /\ World.width W = w /\ World.height W = h.
Proof.
  unfold World.constructor, World.sized.
  destruct wd as [buf|].
  - destruct (Z.eqb_spec (JS.byteLength buf) (w * h * 4)) as [Heq|Hne];
      cbn [negb]; [|discriminate].
    destruct (JS.Uint32Array_viewable buf); [|discriminate].
    intros HW. assert (W = World.mk w h buf
                  match ents with Some l => l | None => [] end [])
      by congruence.
    subst W. cbn. auto.
  - destruct (JS.new_ArrayBuffer allocatable (w * h * 4)) as [e|b] eqn:Hnew;
      [discriminate|].
    destruct (JS.Uint32Array_viewable b); [|discriminate].
    apply new_ArrayBuffer_byteLength in Hnew as [Hlen _].
    intros HW. assert (W = World.mk w h b
                  match ents with Some l => l | None => [] end [])
      by congruence.
    subst W. cbn. auto.
Qed.

Lemma new_ArrayBuffer_allocated n :
  0 <= n <= 2 ^ 53 - 1 -> allocatable n = true ->
  JS.new_ArrayBuffer allocatable n = inr (repeat Byte.x00 (Z.to_nat n)).
Proof.
  intros Hn Ha. unfold JS.new_ArrayBuffer.
  replace (n <? 0) with false by lia.
  replace (2 ^ 53 - 1 <? n) with false by lia.
  cbn [orb]. now rewrite Ha.
Qed.

(** C3.  Construction.  Without a buffer, [World(w, h)] owns a zero-filled
    buffer of exactly [w*h*4] bytes: whenever the constructor returns, and
    it does return whenever [new ArrayBuffer(w*h*4)] does, that is for a
    byte count in [0 .. 2^53 - 1] that the engine can allocate.  A supplied
    buffer whose byte length is not [w*h*4] makes the constructor fail with
    the size-mismatch error; one of exactly [w*h*4] bytes is accepted and
    becomes [data] itself.  The size check is the constructor's only
    validation: it fails with that error in no other case, and its one
    other failure is the RangeError of [new ArrayBuffer], without a supplied
    buffer. *)
Theorem constructor_buffer (w h : Z) (ents : option (list Entity)) :
  (0 <= w * h -> w * h * 4 <= 2 ^ 53 - 1 -> allocatable (w * h * 4) = true ->
   exists W : World.t Quadtree,
     World.constructor allocatable w h ents None = inr W
     /\ JS.byteLength (World.data W) = w * h * 4
     /\ World.data W = repeat Byte.x00 (Z.to_nat (w * h * 4)))
  /\ (forall W : World.t Quadtree,
        World.constructor allocatable w h ents None = inr W ->
        JS.byteLength (World.data W) = w * h * 4
        /\ World.data W = repeat Byte.x00 (Z.to_nat (w * h * 4)))
  /\ (forall buf, JS.byteLength buf <> w * h * 4 ->
      World.constructor (Quadtree := Quadtree) allocatable w h ents (Some buf)
      = inl JS.SizeMismatch)
  /\ (forall buf, JS.byteLength buf = w * h * 4 ->
      exists W : World.t Quadtree,
        World.constructor allocatable w h ents (Some buf) = inr W
        /\ World.data W = buf)
  /\ (forall wd,
        World.constructor (Quadtree := Quadtree) allocatable w h ents wd
        = inl JS.SizeMismatch
        <-> exists buf, wd = Some buf /\ JS.byteLength buf <> w * h * 4)
  /\ (forall wd err,
        World.constructor (Quadtree := Quadtree) allocatable w h ents wd
        = inl err ->
        err = JS.SizeMismatch
        \/ (wd = None /\ err = JS.RangeError
            /\ JS.new_ArrayBuffer allocatable (w * h * 4) = inl JS.RangeError)).
Proof.
  assert (Hfresh : 0 <= w * h -> w * h * 4 <= 2 ^ 53 - 1 ->
    allocatable (w * h * 4) = true ->
    World.constructor (Quadtree := Quadtree) allocatable w h ents None
    = inr (World.mk w h (repeat Byte.x00 (Z.to_nat (w * h * 4)))
             match ents with Some l => l | None => [] end [])).
  { intros Hwh Hmax Ha. unfold World.constructor.
    rewrite new_ArrayBuffer_allocated by (assumption || lia).
    rewrite (viewable_multiple_of_4 _ (w * h)); [reflexivity|].
    unfold JS.byteLength. rewrite repeat_length. lia. }
  assert (Hbad : forall buf, JS.byteLength buf <> w * h * 4 ->
    World.constructor (Quadtree := Quadtree) allocatable w h ents (Some buf)
    = inl JS.SizeMismatch).
  { intros buf Hne. unfold World.constructor.
    destruct (Z.eqb_spec (JS.byteLength buf) (w * h * 4)); [contradiction|].
    reflexivity. }
  assert (Hgood : forall buf, JS.byteLength buf = w * h * 4 ->
    World.constructor (Quadtree := Quadtree) allocatable w h ents (Some buf)
    = inr (World.mk w h buf match ents with Some l => l | None => [] end [])).
  { intros buf Heq. unfold World.constructor.
    destruct (Z.eqb_spec (JS.byteLength buf) (w * h * 4)); [|contradiction].
    cbn [negb]. now rewrite (viewable_multiple_of_4 _ (w * h)). }
  assert (Hnone : forall err,
    World.constructor (Quadtree := Quadtree) allocatable w h ents None
    = inl err ->
    err = JS.RangeError
    /\ JS.new_ArrayBuffer allocatable (w * h * 4) = inl JS.RangeError).
  { intros err. unfold World.constructor.
    destruct (JS.new_ArrayBuffer allocatable (w * h * 4)) as [e|b] eqn:Hnew.
    - intros Herr. assert (e = err) by congruence. subst e.
      assert (err = JS.RangeError); [|subst err; auto].
      unfold JS.new_ArrayBuffer in Hnew.
      destruct ((w * h * 4 <? 0) || (2 ^ 53 - 1 <? w * h * 4));
        [congruence|].
      destruct (allocatable (w * h * 4)); [discriminate|congruence].
    - apply new_ArrayBuffer_byteLength in Hnew as [Hlen _].
      rewrite (viewable_multiple_of_4 b (w * h) Hlen). discriminate. }
  split; [|split; [|split; [|split; [|split]]]].
  - intros Hwh Hmax Ha. eexists. split; [now apply Hfresh|]. cbn.
    split; [|reflexivity].
    unfold JS.byteLength. rewrite repeat_length. lia.
  - intros W HW. unfold World.constructor in HW.
    destruct (JS.new_ArrayBuffer allocatable (w * h * 4)) as [e|b] eqn:Hnew;
      [discriminate|].
    apply new_ArrayBuffer_byteLength in Hnew as [Hlen Hzero].
    destruct (JS.Uint32Array_viewable b); [|discriminate].
    assert (W = World.mk w h b match ents with Some l => l | None => [] end [])
      by congruence.
    subst W. cbn. split; assumption.
  - exact Hbad.
  - intros buf Heq. eexists. split; [apply Hgood, Heq|reflexivity].
  - intros wd. split.
    + destruct wd as [buf|].
      * intros Hfail. exists buf. split; [reflexivity|].
        intros Heq. rewrite (Hgood buf Heq) in Hfail. discriminate.
      * intros Hfail. destruct (Hnone _ Hfail) as [Herr _]. discriminate.
    + intros (buf & -> & Hne). now apply Hbad.
  - intros [buf|] err Hfail.
    + left.
      destruct (Z.eq_dec (JS.byteLength buf) (w * h * 4)) as [Heq|Hne].
      * rewrite (Hgood buf Heq) in Hfail. discriminate.
      * rewrite (Hbad buf Hne) in Hfail. congruence.
    + right. split; [reflexivity|]. exact (Hnone err Hfail).
Qed.

End Construction.

(** ** Arrays, sets and maps *)

Lemma same_entity_eq a b : same_entity a b = true <-> a = b.
Proof. apply Pos.eqb_eq. Qed.

Lemma same_entity_neq a b : same_entity a b = false <-> a <> b.
Proof. apply Pos.eqb_neq. Qed.

Lemma indexOf_range e l :
  -1 <= EntityArray.indexOf e l < Z.of_nat (List.length l).
Proof.
  induction l as [|a l IH]; cbn [EntityArray.indexOf List.length]; [lia|].
  destruct (same_entity a e); [lia|].
  destruct (Z.ltb_spec (EntityArray.indexOf e l) 0); lia.
Qed.

Lemma indexOf_absent e l :
  ~ In e l -> EntityArray.indexOf e l = -1.
Proof.
  induction l as [|a l IH]; cbn [EntityArray.indexOf In]; [reflexivity|].
  intros Hn.
  destruct (same_entity a e) eqn:Ha.
  - apply same_entity_eq in Ha. tauto.
  - rewrite IH by tauto. reflexivity.
Qed.

(** [indexOf] finds the first occurrence. *)
Lemma indexOf_first e l :
  In e l ->
  exists l1 l2,
    l = l1 ++ e :: l2 /\ ~ In e l1
    /\ EntityArray.indexOf e l = Z.of_nat (List.length l1).
Proof.
  induction l as [|a l IH]; cbn [EntityArray.indexOf In]; [tauto|].
  intros Hin.
  destruct (same_entity a e) eqn:Ha.
  - apply same_entity_eq in Ha. subst a.
    exists [], l. cbn. auto.
  - apply same_entity_neq in Ha.
    destruct Hin as [Heq|Hin]; [contradiction|].
    destruct (IH Hin) as (l1 & l2 & -> & Hl1 & Hidx).
    exists (a :: l1), l2. rewrite Hidx.
    split; [reflexivity|]. split; [cbn; intuition congruence|].
    destruct (Z.ltb_spec (Z.of_nat (List.length l1)) 0);
      cbn [List.length]; lia.
Qed.

Lemma splice1_middle (l1 l2 : list Entity) e :
  EntityArray.splice1 (Z.of_nat (List.length l1)) (l1 ++ e :: l2) = l1 ++ l2.
Proof.
  unfold EntityArray.splice1. rewrite Nat2Z.id.
  rewrite firstn_app, firstn_all, Nat.sub_diag. cbn [firstn].
  rewrite app_nil_r. f_equal.
  rewrite skipn_app, skipn_all2 by lia.
  replace (List.length l1 + 1 - List.length l1)%nat with 1%nat by lia.
  reflexivity.
Qed.

(** [indexOf] followed by a guarded [splice]: the array without the first
    occurrence of [e]. *)
Lemma indexOf_splice e l :
  let index := EntityArray.indexOf e l in
  let l' := if -1 <? index then EntityArray.splice1 index l else l in
  (~ In e l /\ l' = l)
  \/ (exists l1 l2, l = l1 ++ e :: l2 /\ ~ In e l1 /\ l' = l1 ++ l2).
Proof.
  cbv zeta.
  destruct (in_dec Pos.eq_dec e l) as [Hin|Hnin].
  - right. destruct (indexOf_first e l Hin) as (l1 & l2 & Hl & Hl1 & Hidx).
    exists l1, l2. rewrite Hidx.
    replace (-1 <? Z.of_nat (List.length l1)) with true by lia.
    subst l. now rewrite splice1_middle.
  - left. now rewrite indexOf_absent.
Qed.

Lemma has_In e s : EntitySet.has e s = true <-> In e s.
Proof.
  unfold EntitySet.has. rewrite existsb_exists. split.
  - intros (a & Ha & Heq). apply same_entity_eq in Heq. now subst a.
  - intros Hin. exists e. split; [assumption|]. now apply same_entity_eq.
Qed.

Lemma add_member e s : EntitySet.has e s = true -> EntitySet.add e s = s.
Proof. unfold EntitySet.add. now intros ->. Qed.

Lemma has_add e s : EntitySet.has e (EntitySet.add e s) = true.
Proof.
  unfold EntitySet.add. destruct (EntitySet.has e s) eqn:Hs; [assumption|].
  apply has_In, in_or_app. right. now left.
Qed.

Lemma delete_absent e s : EntitySet.has e s = false -> EntitySet.delete e s = s.
Proof.
  unfold EntitySet.has, EntitySet.delete.
  induction s as [|a s IH]; cbn [existsb filter]; [reflexivity|].
  intros Hs. apply orb_false_iff in Hs as [Ha Hs].
  rewrite Ha. cbn [negb]. now rewrite IH.
Qed.

Lemma has_delete e s : EntitySet.has e (EntitySet.delete e s) = false.
Proof.
  destruct (EntitySet.has e (EntitySet.delete e s)) eqn:Hs; [|reflexivity].
  apply has_In in Hs. unfold EntitySet.delete in Hs.
  apply filter_In in Hs as [_ Hs].
  assert (same_entity e e = true) by now apply same_entity_eq.
  rewrite H in Hs. discriminate.
Qed.

Section MapFacts.
Context {V : Type}.
Implicit Type m : StringMap.t V.

Lemma get_set_same k v m : StringMap.get k (StringMap.set k v m) = Some v.
Proof.
  induction m as [|[k' v'] m IH]; cbn [StringMap.get StringMap.set].
  - now rewrite String.eqb_refl.
  - destruct (String.eqb k k') eqn:Hk; cbn [StringMap.get]; rewrite Hk;
      [reflexivity|assumption].
Qed.

Lemma get_set_other k k' v m :
  k' <> k -> StringMap.get k' (StringMap.set k v m) = StringMap.get k' m.
Proof.
  intros Hne.
  induction m as [|[k0 v0] m IH]; cbn [StringMap.get StringMap.set].
  - apply String.eqb_neq in Hne. now rewrite Hne.
  - destruct (String.eqb k k0) eqn:Hk; cbn [StringMap.get].
    + apply String.eqb_eq in Hk. subst k0.
      apply String.eqb_neq in Hne. now rewrite Hne.
    + destruct (String.eqb k' k0); [reflexivity|assumption].
Qed.
End MapFacts.

(** ** Entities and layers *)

Section Layers.
Context {Quadtree : Type} {Quadtree_storage : EntityStorage Quadtree}.
Variable new_Quadtree : Rectangle.t -> Z -> Quadtree.
Variable pos : Entity -> Vector.t.
Implicit Type W : World.t Quadtree.

(** The global list after [remove]: the first occurrence is gone. *)
Lemma remove_entities W e L :
  let W' := snd (World.remove W e L) in
  (~ In e (World.entities W) /\ World.entities W' = World.entities W)
  \/ (exists l1 l2,
        World.entities W = l1 ++ e :: l2 /\ ~ In e l1
        /\ World.entities W' = l1 ++ l2).
Proof.
  cbv zeta. unfold World.remove.
  pose proof (indexOf_splice e (World.entities W)) as H. cbv zeta in H.
  destruct (StringMap.get L (World.entityLayers W)); exact H.
Qed.

Lemma remove_grid W e L :
  let W' := snd (World.remove W e L) in
  World.width W' = World.width W /\ World.height W' = World.height W
  /\ World.data W' = World.data W.
Proof.
  cbv zeta. unfold World.remove.
  destruct (StringMap.get L (World.entityLayers W)); cbn; auto.
Qed.

(** The entity methods keep the grid. *)
Lemma insert_sized W e L :
  World.sized W -> World.sized (World.insert new_Quadtree W e L).
Proof.
  unfold World.sized, World.insert.
  destruct (StringMap.get L (World.entityLayers W)); trivial.
Qed.

Lemma remove_sized W e L :
  World.sized W -> World.sized (snd (World.remove W e L)).
Proof.
  unfold World.sized.
  destruct (remove_grid W e L) as (-> & -> & ->). trivial.
Qed.

Lemma update_sized W : World.sized W -> World.sized (World.update W).
Proof. trivial. Qed.

(** After [insert(e, L)] the entity is a member of [L] and the last element
    of the global list. *)
Lemma insert_member W e L :
  let W' := World.insert new_Quadtree W e L in
  (exists layer,
     StringMap.get L (World.entityLayers W') = Some layer
     /\ EntitySet.has e (World.layer_entities layer) = true)
  /\ World.entities W' = World.entities W ++ [e].
Proof.
  cbv zeta. unfold World.insert.
  destruct (StringMap.get L (World.entityLayers W)) as [layer|];
    cbn [World.entityLayers World.entities];
    (split; [|reflexivity]); eexists;
    (split; [apply get_set_same|]); apply has_add.
Qed.

(** The layer side of [remove] when the layer exists. *)
Lemma remove_existing_layer W e L layer :
  StringMap.get L (World.entityLayers W) = Some layer ->
  fst (World.remove W e L) = Some e
  /\ StringMap.get L (World.entityLayers (snd (World.remove W e L)))
     = Some (World.mkLayer
               (EntitySet.delete e (World.layer_entities layer))
               (snd (storage_remove e (World.qtree layer))))
  /\ forall L', L' <> L ->
        StringMap.get L' (World.entityLayers (snd (World.remove W e L)))
        = StringMap.get L' (World.entityLayers W).
Proof.
  intros Hget. unfold World.remove. rewrite Hget.
  cbn [fst snd World.entityLayers].
  split; [reflexivity|]. split; [apply get_set_same|].
  intros L' HL'. now apply get_set_other.
Qed.

Lemma remove_missing_layer W e L :
  StringMap.get L (World.entityLayers W) = None ->
  fst (World.remove W e L) = None
  /\ World.entityLayers (snd (World.remove W e L)) = World.entityLayers W.
Proof.
  intros Hget. unfold World.remove. rewrite Hget. split; reflexivity.
Qed.

(** C5, as the code has it.  [remove(entity, layerId)] always returns.  It
    removes the first occurrence of the entity from the global list.  When
    the named layer exists it deletes the entity from the layer's set,
    calls the layer's Quadtree [remove], keeps every other layer, and
    returns the entity, also when the entity was not a member of the layer
    (the set is then unchanged).  When the layer does not exist it returns
    [null] and keeps the layers. *)
Theorem remove_outcome W e L :
  let result := fst (World.remove W e L) in
  let W' := snd (World.remove W e L) in
  ((~ In e (World.entities W) /\ World.entities W' = World.entities W)
   \/ (exists l1 l2,
         World.entities W = l1 ++ e :: l2 /\ ~ In e l1
         /\ World.entities W' = l1 ++ l2))
  /\ match StringMap.get L (World.entityLayers W) with
     | Some layer =>
         result = Some e
         /\ StringMap.get L (World.entityLayers W')
            = Some (World.mkLayer
                      (EntitySet.delete e (World.layer_entities layer))
                      (snd (storage_remove e (World.qtree layer))))
         /\ EntitySet.has e (EntitySet.delete e (World.layer_entities layer))
            = false
         /\ (EntitySet.has e (World.layer_entities layer) = false ->
             EntitySet.delete e (World.layer_entities layer)
             = World.layer_entities layer)
         /\ (forall L', L' <> L ->
               StringMap.get L' (World.entityLayers W')
               = StringMap.get L' (World.entityLayers W))
     | None =>
         result = None /\ World.entityLayers W' = World.entityLayers W
     end.
Proof.
  cbv zeta. split; [apply remove_entities|].
  destruct (StringMap.get L (World.entityLayers W)) as [layer|] eqn:Hget.
  - destruct (remove_existing_layer W e L layer Hget) as (Hres & Hl & Hother).
    split; [assumption|]. split; [assumption|].
    split; [apply has_delete|]. split; [apply delete_absent|assumption].
  - now apply remove_missing_layer.
Qed.

(** C6.  Against a layer name (other than ["ALL"]) that names no layer,
    [query] and [nearby] return the empty list. *)
Theorem query_missing_layer W range e radius L :
  L <> "ALL"%string ->
  StringMap.get L (World.entityLayers W) = None ->
  World.query W range L = [] /\ World.nearby pos W e radius L = [].
Proof.
  intros HL Hget. unfold World.nearby, World.query.
  apply String.eqb_neq in HL. rewrite HL, Hget. split; reflexivity.
Qed.

(** C8.  [remove] is not atomic: for an entity of the global list and a
    layer name that names no layer it returns [null], yet the first
    occurrence of the entity has left the global list. *)
Theorem remove_missing_layer_mutates W e L :
  In e (World.entities W) ->
  StringMap.get L (World.entityLayers W) = None ->
  fst (World.remove W e L) = None
  /\ (exists l1 l2,
        World.entities W = l1 ++ e :: l2 /\ ~ In e l1
        /\ World.entities (snd (World.remove W e L)) = l1 ++ l2)
  /\ List.length (World.entities (snd (World.remove W e L)))
     = pred (List.length (World.entities W))
  /\ snd (World.remove W e L) <> W.
Proof.
  intros Hin Hget.
  assert (Hres : fst (World.remove W e L) = None)
    by now apply remove_missing_layer.
  destruct (remove_entities W e L) as [[Hnin _]|(l1 & l2 & Hl & Hl1 & Hl')];
    [contradiction|].
  assert (Hlen : List.length (World.entities (snd (World.remove W e L)))
                 = pred (List.length (World.entities W))).
  { rewrite Hl', Hl, !length_app. cbn [List.length]. lia. }
  split; [assumption|]. split; [eauto|]. split; [assumption|].
  intros Heq. rewrite Heq in Hlen.
  rewrite Hl, length_app in Hlen. cbn [List.length] in Hlen. lia.
Qed.

(** C10, as the code has it.  For an entity [e] that is a member of layer
    [L] and occurs in the global list, [insert(e, L)] leaves the layer's
    set as it is, passes [e] to the Quadtree's [insert] once more and
    appends one more reference to [e] to the global list; the [remove(e,
    L)] that follows takes out the first occurrence only, so the appended
    reference stays behind. *)
Theorem reinsert_leaves_duplicate W e L layer :
  StringMap.get L (World.entityLayers W) = Some layer ->
  EntitySet.has e (World.layer_entities layer) = true ->
  In e (World.entities W) ->
  let W' := World.insert new_Quadtree W e L in
  let W'' := snd (World.remove W' e L) in
  StringMap.get L (World.entityLayers W')
  = Some (World.mkLayer (World.layer_entities layer)
            (snd (storage_insert e (World.qtree layer))))
  /\ EntitySet.size (EntitySet.add e (World.layer_entities layer))
     = EntitySet.size (World.layer_entities layer)
  /\ World.entities W' = World.entities W ++ [e]
  /\ (exists l1 l2,
        World.entities W = l1 ++ e :: l2 /\ ~ In e l1
        /\ World.entities W' = l1 ++ e :: l2 ++ [e]
        /\ World.entities W'' = l1 ++ l2 ++ [e])
  /\ In e (World.entities W'')
  /\ fst (World.remove W' e L) = Some e
  /\ exists layer'',
       StringMap.get L (World.entityLayers W'') = Some layer''
       /\ EntitySet.has e (World.layer_entities layer'') = false.
Proof.
  intros Hget Hhas Hin. cbv zeta.
  assert (Hlayers : StringMap.get L
            (World.entityLayers (World.insert new_Quadtree W e L))
          = Some (World.mkLayer (World.layer_entities layer)
                    (snd (storage_insert e (World.qtree layer))))).
  { unfold World.insert. rewrite Hget. cbn [World.entityLayers].
    rewrite get_set_same, add_member by assumption. reflexivity. }
  assert (Hents : World.entities (World.insert new_Quadtree W e L)
                  = World.entities W ++ [e]) by apply insert_member.
  destruct (indexOf_first e (World.entities W) Hin)
    as (l1 & l2 & Hl & Hl1 & _).
  split; [assumption|]. split; [now rewrite add_member|].
  split; [assumption|].
  assert (Hafter : World.entities
                     (snd (World.remove (World.insert new_Quadtree W e L) e L))
                   = l1 ++ l2 ++ [e]).
  { destruct (remove_entities (World.insert new_Quadtree W e L) e L)
      as [[Hnin _]|(k1 & k2 & Hk & Hk1 & Hk')].
    - exfalso. apply Hnin. rewrite Hents. apply in_or_app. right. now left.
    - rewrite Hk'. rewrite Hents, Hl, <- app_assoc in Hk. cbn [app] in Hk.
      assert (Hsame : k1 = l1 /\ k2 = l2 ++ [e]).
      { clear - Hk Hl1 Hk1. revert k1 Hk Hk1.
        induction l1 as [|a l1 IH]; intros [|b k1] Hk Hk1; cbn in *.
        - split; [reflexivity|congruence].
        - exfalso. apply Hk1. left. congruence.
        - exfalso. apply Hl1. left. congruence.
        - injection Hk as Hab Hk. subst b.
          destruct (IH (fun H => Hl1 (or_intror H)) k1 Hk
                       (fun H => Hk1 (or_intror H))) as [-> ->].
          split; reflexivity. }
      destruct Hsame as [-> ->]. reflexivity. }
  split.
  { exists l1, l2. split; [assumption|]. split; [assumption|].
    split; [|assumption].
    rewrite Hents, Hl, <- app_assoc. reflexivity. }
  split; [rewrite Hafter; apply in_or_app; right; apply in_or_app; right;
          now left|].
  destruct (remove_existing_layer _ e L _ Hlayers) as (Hres & Hget'' & _).
  split; [assumption|]. eexists. split; [exact Hget''|apply has_delete].
Qed.

End Layers.

(** ** The properties at concrete worlds *)

Lemma field_round_trip_isolation_witness :
  World.getTileProp (World.setTileProp Sample.indexed5 3 3 entityId 4095)
    3 3 entityId = 4095
  /\ forall q, q <> entityId ->
       World.getTileProp (World.setTileProp Sample.indexed5 3 3 entityId 4095)
         3 3 q
       = World.getTileProp Sample.indexed5 3 3 q.
Proof.
  apply (field_round_trip_isolation Sample.indexed5 3 3 entityId 4095).
  - reflexivity.
  - unfold World.in_bounds. cbn. lia.
  - cbn. lia.
Defined.

Lemma raw_round_trip_witness :
  World.getTileRaw (World.setTileRaw Sample.indexed5 3 2 420) 3 2 = Some 420.
Proof.
  apply (raw_round_trip Sample.indexed5 3 2 420).
  - reflexivity.
  - unfold World.in_bounds. cbn. lia.
  - lia.
Defined.

(** [new World(5, 5)] is the world [Sample.empty5]. *)
Lemma constructor_empty5 : Sample.world5 = inr Sample.empty5.
Proof. reflexivity. Qed.

Lemma constructor_buffer_witness :
  (exists W : Sample.World,
     World.constructor Sample.allocatable 64 64 None None = inr W
     /\ JS.byteLength (World.data W) = 16384)
  /\ World.constructor (Quadtree := ListStorage.t) Sample.allocatable 5 5 None
       (Some (repeat Byte.x00 99)) = inl JS.SizeMismatch
  /\ (exists W : Sample.World,
        World.constructor Sample.allocatable 5 5 None
          (Some Sample.indexed_data) = inr W
        /\ World.data W = Sample.indexed_data)
  /\ JS.new_ArrayBuffer Sample.allocatable (65536 * 65536 * 4)
     = inl JS.RangeError.
Proof.
  split; [|split; [|split]].
  - destruct (proj1 (constructor_buffer (Quadtree := ListStorage.t)
                       Sample.allocatable 64 64 None))
      as (W & HW & Hlen & _); [lia|lia|reflexivity|].
    exists W. split; assumption.
  - apply (proj1 (proj2 (proj2 (constructor_buffer Sample.allocatable
                                  5 5 None)))).
    cbn. lia.
  - apply (proj1 (proj2 (proj2 (proj2 (constructor_buffer Sample.allocatable
                                         5 5 None))))).
    reflexivity.
  - destruct (proj2 (proj2 (proj2 (proj2 (proj2
                (constructor_buffer (Quadtree := ListStorage.t)
                   Sample.allocatable 65536 65536 None)))))
              None JS.RangeError eq_refl) as [Herr|(_ & _ & Hnew)];
      [discriminate|exact Hnew].
Defined.

Lemma setTileProp_unchecked_witness :
  exists tile,
    World.getTileRaw Sample.indexed5 1 0 = Some tile
    /\ World.getTileRaw (World.setTileProp Sample.indexed5 1 0 entityType 0x25)
         1 0
       = Some (JS.ToUint32 (Z.lor (Z.shiftl 0x25 0) (Z.land tile (Z.lnot 0xF))))
    /\ World.getTileProp (World.setTileProp Sample.indexed5 1 0 entityType 0x25)
         1 0 entityType = 0x25 mod 2 ^ 4
    /\ forall q, q <> entityType ->
         World.getTileProp
           (World.setTileProp Sample.indexed5 1 0 entityType 0x25) 1 0 q
         = Z.lor (World.getTileProp Sample.indexed5 1 0 q)
             (Z.shiftr 0x25 (BitField.offset (bitScheme q) - 0)
              mod 2 ^ BitField.length (bitScheme q)).
Proof.
  destruct (setTileProp_unchecked Sample.indexed5 1 0 entityType 0x25)
    as (tile & Ht & Hraw & Hsame & Hother & _).
  - reflexivity.
  - unfold World.in_bounds. cbn. lia.
  - cbn. lia.
  - exists tile. repeat split; assumption.
Defined.

Lemma tile_codec_vectors_witness :
  World.getTileRaw
    (World.setTileProp (World.setTileRaw Sample.indexed5 3 3 0xe009)
       3 3 entityType 5) 3 3 = Some 0xe005
  /\ World.getTileProp (World.setTileRaw Sample.indexed5 4 4 0x20000)
       4 4 terrain = 2
  /\ World.getTileProp (World.setTileRaw Sample.indexed5 3 4 0xa)
       3 4 entityType = 10.
Proof.
  split; [|split].
  - apply (proj1 (tile_codec_vectors
                    (World.setTileRaw Sample.indexed5 3 3 0xe009) 3 3)).
    reflexivity.
  - apply (proj1 (proj2 (tile_codec_vectors
                    (World.setTileRaw Sample.indexed5 4 4 0x20000) 4 4))).
    reflexivity.
  - apply (proj2 (proj2 (tile_codec_vectors
                    (World.setTileRaw Sample.indexed5 3 4 0xa) 3 4))).
    reflexivity.
Defined.

Lemma raw_access_unchecked_witness :
  (* (7, 1) on a 5 x 5 grid is the cell (2, 2) *)
  World.getTileRaw Sample.indexed5 7 1 = World.getTileRaw Sample.indexed5 2 2
  /\ World.getTileRaw (World.setTileRaw Sample.indexed5 7 1 99) 2 2 = Some 99
  (* (0, 5) lies past the last row *)
  /\ World.getTileRaw Sample.indexed5 0 5 = None
  /\ World.setTileRaw Sample.indexed5 0 5 99 = Sample.indexed5.
Proof.
  assert (Hs : World.sized Sample.indexed5) by reflexivity.
  destruct (raw_access_unchecked Sample.indexed5 7 1 99 Hs) as [Hin _].
  destruct (raw_access_unchecked Sample.indexed5 0 5 99 Hs) as [_ Hout].
  cbv zeta in Hin, Hout.
  destruct Hin as (_ & _ & Hrow); [cbn; lia|cbn; lia|].
  destruct Hrow as (_ & _ & Hget & Hset); [cbn; lia|].
  destruct Hout as (Hnone & Hdrop); [cbn; lia|].
  split; [exact Hget|]. split; [exact Hset|]. split; assumption.
Defined.

Lemma remove_outcome_witness :
  let W := Sample.insert (Sample.insert Sample.empty5 1 "A") 2 "A" in
  fst (Sample.remove W 1 "A") = Some 1%positive
  /\ World.entities (snd (Sample.remove W 1 "A")) = [2%positive]
  /\ exists layer,
       StringMap.get "A" (World.entityLayers (snd (Sample.remove W 1 "A")))
       = Some layer
       /\ World.layer_entities layer = [2%positive].
Proof.
  cbv zeta.
  pose proof (remove_outcome (Quadtree_storage := Sample.storage)
                (Sample.insert (Sample.insert Sample.empty5 1 "A") 2 "A")
                1%positive "A") as [_ Hlayer].
  cbv zeta in Hlayer.
  change (StringMap.get "A"
            (World.entityLayers
               (Sample.insert (Sample.insert Sample.empty5 1 "A") 2 "A")))
    with (Some (World.mkLayer [1; 2]%positive
                  (ListStorage.mk
                     (Rectangle.mk (5 / 2) (5 / 2) (5 / 2) (5 / 2))
                     [1; 2]%positive)))
    in Hlayer.
  destruct Hlayer as (Hres & Hget & _).
  split; [exact Hres|]. split; [reflexivity|].
  eexists. split; [exact Hget|reflexivity].
Defined.

Lemma query_missing_layer_witness :
  Sample.query (Sample.insert Sample.empty5 1 "A") (Rectangle.mk 0 0 3 3) "B"
  = []
  /\ Sample.nearby (Sample.insert Sample.empty5 1 "A") 1 2 "B" = [].
Proof.
  apply (query_missing_layer (Quadtree_storage := Sample.storage) Sample.pos).
  - discriminate.
  - reflexivity.
Defined.

Lemma remove_missing_layer_mutates_witness :
  fst (Sample.remove (Sample.insert Sample.empty5 1 "A") 1 "B") = None
  /\ World.entities (Sample.insert Sample.empty5 1 "A") = [1%positive]
  /\ World.entities
       (snd (Sample.remove (Sample.insert Sample.empty5 1 "A") 1 "B")) = [].
Proof.
  destruct (remove_missing_layer_mutates
              (Quadtree_storage := Sample.storage)
              (Sample.insert Sample.empty5 1 "A") 1%positive "B")
    as (Hres & _ & _ & _).
  - cbn. auto.
  - reflexivity.
  - split; [exact Hres|]. split; reflexivity.
Defined.

Lemma reinsert_leaves_duplicate_witness :
  let W := Sample.insert Sample.empty5 1 "A" in
  World.entities (Sample.insert W 1 "A") = [1; 1]%positive
  /\ In 1%positive
       (World.entities (snd (Sample.remove (Sample.insert W 1 "A") 1 "A"))).
Proof.
  cbv zeta.
  destruct (reinsert_leaves_duplicate
              (Quadtree_storage := Sample.storage) ListStorage.create
              (Sample.insert Sample.empty5 1 "A") 1%positive "A"
              (World.mkLayer [1%positive]
                 (ListStorage.mk (Rectangle.mk (5 / 2) (5 / 2) (5 / 2) (5 / 2))
                    [1%positive])))
    as (_ & _ & Hents & _ & Hin & _).
  - reflexivity.
  - reflexivity.
  - cbn. auto.
  - split; [exact Hents|exact Hin].
Defined.

(** ** Where the code departs from the text *)

(** C4 as stated fails: writing 16 to [entityType] (4 bits) on a tile
    whose [entityId] is 1 leaves the tile, and so the adjacent higher field,
    exactly as they were; and [foodTrail] has no adjacent higher field: its
    excess bits land in the reserved bits and change no field. *)
Lemma spill_counterexample :
  let W := World.setTileRaw Sample.empty5 0 0 0x10 in
  let W' := World.setTileProp W 0 0 entityType 16 in
  let V := World.setTileProp Sample.empty5 0 0 foodTrail 8 in
  (2 ^ BitField.length (bitScheme entityType) <= 16
   /\ adjacent_higher entityType entityId = true
   /\ World.getTileRaw W 0 0 = Some 0x10
   /\ World.getTileRaw W' 0 0 = Some 0x10
   /\ World.getTileProp W 0 0 entityId = 1
   /\ World.getTileProp W' 0 0 entityId = 1)
  /\ (2 ^ BitField.length (bitScheme foodTrail) <= 8
      /\ (forall q, adjacent_higher foodTrail q = false)
      /\ World.getTileRaw V 0 0 = Some 0x1000000
      /\ forall q, World.getTileProp V 0 0 q = 0).
Proof.
  cbv zeta. split.
  - repeat split; cbn; lia || reflexivity.
  - split; [cbn; lia|]. split; [intros []; reflexivity|].
    split; [reflexivity|intros []; reflexivity].
Qed.

(** C5 as stated fails: removing an entity that is not in the (existing)
    target layer returns the entity, not a not-found result, although
    nothing was removed. *)
Lemma remove_absent_counterexample :
  let W := Sample.insert Sample.empty5 1 DEFAULT_LAYER_ID in
  (exists layer,
     StringMap.get DEFAULT_LAYER_ID (World.entityLayers W) = Some layer
     /\ EntitySet.has 2 (World.layer_entities layer) = false)
  /\ fst (Sample.remove W 2 DEFAULT_LAYER_ID) = Some 2%positive
  /\ fst (Sample.remove W 2 DEFAULT_LAYER_ID) <> None
  /\ World.entities (snd (Sample.remove W 2 DEFAULT_LAYER_ID)) = World.entities W
  /\ (exists layer,
        StringMap.get DEFAULT_LAYER_ID
          (World.entityLayers (snd (Sample.remove W 2 DEFAULT_LAYER_ID))) = Some layer
        /\ World.layer_entities layer = [1%positive]).
Proof.
  cbv zeta. split; [eexists; split; reflexivity|].
  split; [reflexivity|]. split; [discriminate|]. split; [reflexivity|].
  eexists; split; reflexivity.
Qed.

(** C10 as stated fails: after [insert(1, "A")] and [remove(1, "B")]
    (no layer "B": the entity leaves the global list only) entity 1 is
    still a member of layer "A"; inserting it again puts a single reference
    in the global list, and the [remove] that follows leaves none. *)
Lemma reinsert_counterexample :
  let W := snd (Sample.remove (Sample.insert Sample.empty5 1 "A") 1 "B") in
  let W' := Sample.insert W 1 "A" in
  let W'' := snd (Sample.remove W' 1 "A") in
  (exists layer,
     StringMap.get "A" (World.entityLayers W) = Some layer
     /\ EntitySet.has 1 (World.layer_entities layer) = true)
  /\ World.entities W = []
  /\ World.entities W' = [1%positive]
  /\ World.entities W'' = []
  /\ ~ In 1%positive (World.entities W'').
Proof.
  cbv zeta. split; [eexists; split; reflexivity|].
  repeat split. intros [].
Qed.

(* ================================================================== *)
(** * Part III: further properties of the code                         *)
(* ================================================================== *)

(** ** The bit scheme and the codec *)

(** X1.  The table [bitScheme] is consistent: each mask is [length] ones
    shifted left by [offset], the fields lie within bits 0..23, and the
    masks of two different fields have no bit in common. *)
Theorem bitScheme_consistent p q :
  BitField.mask (bitScheme p)
  = Z.shiftl (Z.ones (BitField.length (bitScheme p)))
             (BitField.offset (bitScheme p))
  /\ 0 <= BitField.offset (bitScheme p)
  /\ 0 < BitField.length (bitScheme p)
  /\ BitField.offset (bitScheme p) + BitField.length (bitScheme p) <= 24
  /\ (p <> q ->
      Z.land (BitField.mask (bitScheme p)) (BitField.mask (bitScheme q)) = 0).
Proof.
  split; [apply mask_ones|].
  pose proof (scheme_bounds p) as (Ho & Hl & Hs).
  repeat (split; [assumption|]).
  intros Hpq. apply Z.bits_inj'. intros i Hi.
  rewrite Z.land_spec, !mask_testbit, Z.bits_0.
  destruct (in_field p i) eqn:Hp; [|reflexivity].
  now rewrite (fields_disjoint p q i Hpq Hp).
Qed.

Lemma getBitValue_as_div_mod tile p :
  getBitValue tile p
  = (tile mod 2 ^ 32 / 2 ^ BitField.offset (bitScheme p))
    mod 2 ^ BitField.length (bitScheme p).
Proof.
  pose proof (scheme_bounds p) as (Ho & Hl & Hs).
  apply Z.bits_inj'. intros j Hj.
  rewrite getBitValue_testbit, Z.testbit_mod_pow2 by lia.
  rewrite Z.div_pow2_bits, Z.testbit_mod_pow2 by lia.
  destruct (Z.ltb_spec j (BitField.length (bitScheme p))); [|reflexivity].
  replace (j + BitField.offset (bitScheme p) <? 32) with true by lia.
  reflexivity.
Qed.

(** X2.  Decoding is a division and a remainder: for every tile,
    [getBitValue] is [(tile mod 2^32) / 2^offset mod 2^length], hence a
    value of the field's range [0 .. 2^length - 1]. *)
Theorem getBitValue_div_mod tile p :
  getBitValue tile p
  = (tile mod 2 ^ 32 / 2 ^ BitField.offset (bitScheme p))
    mod 2 ^ BitField.length (bitScheme p)
  /\ 0 <= getBitValue tile p < 2 ^ BitField.length (bitScheme p).
Proof.
  pose proof (scheme_bounds p) as (Ho & Hl & Hs).
  split; [apply getBitValue_as_div_mod|].
  rewrite getBitValue_as_div_mod. apply Z.mod_pos_bound. lia.
Qed.

Lemma field_covers i :
  0 <= i < 24 -> exists p, in_field p i = true.
Proof.
  intros Hi. unfold in_field.
  destruct (Z.ltb_spec i 4); [exists entityType; cbn; lia|].
  destruct (Z.ltb_spec i 16); [exists entityId; cbn; lia|].
  destruct (Z.ltb_spec i 18); [exists terrain; cbn; lia|].
  destruct (Z.ltb_spec i 21); [exists homeTrail; cbn; lia|].
  exists foodTrail; cbn; lia.
Qed.

(** X3.  The five fields and the reserved byte are the whole tile: two
    unsigned 32-bit tiles on which [getBitValue] agrees for every field,
    and whose bits 24..31 agree, are equal. *)
Theorem fields_determine_tile t1 t2 :
  0 <= t1 < 2 ^ 32 -> 0 <= t2 < 2 ^ 32 ->
  (forall p, getBitValue t1 p = getBitValue t2 p) ->
  Z.shiftr t1 24 = Z.shiftr t2 24 ->
  t1 = t2.
Proof.
  intros H1 H2 Hfields Htop.
  apply Z.bits_inj'. intros i Hi.
  destruct (Z.ltb_spec i 24) as [Hlow|Hhigh].
  - destruct (field_covers i ltac:(lia)) as [p Hp].
    pose proof (scheme_bounds p) as (Ho & Hl & Hs).
    unfold in_field in Hp.
    pose proof (f_equal (fun z => Z.testbit z (i - BitField.offset (bitScheme p)))
                  (Hfields p)) as Hbit.
    cbv beta in Hbit. rewrite !getBitValue_testbit in Hbit by lia.
    replace (i - BitField.offset (bitScheme p) <? BitField.length (bitScheme p))
      with true in Hbit by lia.
    replace (i - BitField.offset (bitScheme p) + BitField.offset (bitScheme p))
      with i in Hbit by lia.
    exact Hbit.
  - pose proof (f_equal (fun z => Z.testbit z (i - 24)) Htop) as Hbit.
    cbv beta in Hbit. rewrite !Z.shiftr_spec in Hbit by lia.
    replace (i - 24 + 24) with i in Hbit by lia. exact Hbit.
Qed.

Lemma fields_determine_tile_witness : 0xAB12345 = 0xAB12345.
Proof.
  apply (fields_determine_tile 0xAB12345 0xAB12345).
  - lia.
  - lia.
  - intros p. reflexivity.
  - reflexivity.
Defined.

(** The stored tile after an in-range write, as arithmetic. *)
Lemma setBitValue_arith tile p v :
  0 <= tile < 2 ^ 32 -> 0 <= v < 2 ^ BitField.length (bitScheme p) ->
  JS.ToUint32 (setBitValue tile p v)
  = tile + (v - getBitValue tile p) * 2 ^ BitField.offset (bitScheme p).
Proof.
  intros Ht Hv. pose proof (scheme_bounds p) as (Ho & Hl & Hs).
  set (off := BitField.offset (bitScheme p)) in *.
  set (len := BitField.length (bitScheme p)) in *.
  set (rest := Z.land tile (Z.lnot (BitField.mask (bitScheme p)))).
  assert (Hvhigh : forall j, len <= j -> Z.testbit v j = false).
  { intros j Hj. rewrite <- (Z.mod_small v (2 ^ len)) by lia.
    apply Z.mod_pow2_bits_high. lia. }
  assert (Hthigh : forall j, 32 <= j -> Z.testbit tile j = false).
  { intros j Hj. rewrite <- (Z.mod_small tile (2 ^ 32)) by lia.
    apply Z.mod_pow2_bits_high. lia. }
  assert (Hnew : JS.ToUint32 (setBitValue tile p v)
                 = Z.lor (Z.shiftl v off) rest).
  { apply Z.bits_inj'. intros i Hi.
    rewrite ToUint32_testbit.
    subst rest. rewrite Z.lor_spec, Z.shiftl_spec, Z.land_spec, Z.lnot_spec,
      mask_testbit by lia.
    destruct (Z.ltb_spec i 32) as [Hlt|Hge]; cbn [andb].
    - now rewrite setBitValue_testbit by lia.
    - rewrite Hvhigh, Hthigh by (subst off len; lia). reflexivity. }
  assert (Hsum : Z.lor (Z.shiftl v off) rest = Z.shiftl v off + rest).
  { apply Z.or_to_plus. apply Z.bits_inj'. intros i Hi.
    subst rest. rewrite Z.land_spec, Z.shiftl_spec, Z.land_spec, Z.lnot_spec,
      mask_testbit, Z.bits_0 by lia.
    unfold in_field. fold off len.
    destruct (Z.leb_spec off i); destruct (Z.ltb_spec i (off + len));
      cbn [andb negb]; rewrite ?andb_false_r; try reflexivity.
    + rewrite Hvhigh by lia. reflexivity.
    + rewrite (Z.testbit_neg_r _ (i - off)) by lia. reflexivity.
    + rewrite (Z.testbit_neg_r _ (i - off)) by lia. reflexivity. }
  assert (Hold : tile = Z.shiftl (getBitValue tile p) off + rest).
  { rewrite <- Z.or_to_plus.
    - apply Z.bits_inj'. intros i Hi.
      subst rest. rewrite Z.lor_spec, Z.shiftl_spec, Z.land_spec, Z.lnot_spec,
        mask_testbit by lia.
      unfold in_field. fold off len.
      destruct (Z.leb_spec off i).
      + rewrite getBitValue_testbit by lia. fold off len.
        replace (i - off + off) with i by lia.
        destruct (Z.ltb_spec i (off + len));
          destruct (Z.ltb_spec (i - off) len); try lia; cbn [andb negb];
          rewrite ?andb_true_r, ?andb_false_r, ?orb_false_r; reflexivity.
      + rewrite (Z.testbit_neg_r _ (i - off)) by lia. cbn [andb negb orb].
        now rewrite andb_true_r.
    - apply Z.bits_inj'. intros i Hi.
      subst rest. rewrite Z.land_spec, Z.shiftl_spec, Z.land_spec, Z.lnot_spec,
        mask_testbit, Z.bits_0 by lia.
      unfold in_field. fold off len.
      destruct (Z.leb_spec off i).
      + rewrite getBitValue_testbit by lia. fold off len.
        destruct (Z.ltb_spec i (off + len));
          destruct (Z.ltb_spec (i - off) len); try lia; cbn [andb negb];
          rewrite ?andb_false_r; reflexivity.
      + rewrite (Z.testbit_neg_r _ (i - off)) by lia. reflexivity. }
  rewrite Hnew, Hsum. rewrite !Z.shiftl_mul_pow2 in * by lia.
  generalize dependent (getBitValue tile p). intros g Hg. lia.
Qed.

(** ** More on the typed-array view *)

Lemma Uint32Array_set_length b i v :
  JS.Uint32Array_length (JS.Uint32Array_set b i v) = JS.Uint32Array_length b.
Proof. unfold JS.Uint32Array_length. now rewrite Uint32Array_set_byteLength. Qed.

Lemma Uint32Array_get_None b i :
  JS.Uint32Array_get b i = None -> ~ 0 <= i < JS.Uint32Array_length b.
Proof.
  unfold JS.Uint32Array_get.
  destruct (Z.leb_spec 0 i); destruct (Z.ltb_spec i (JS.Uint32Array_length b));
    cbn [andb]; intros Hget; try discriminate; lia.
Qed.

Lemma Uint32Array_get_Some b i tile :
  JS.Uint32Array_get b i = Some tile -> 0 <= i < JS.Uint32Array_length b.
Proof.
  unfold JS.Uint32Array_get.
  destruct (Z.leb_spec 0 i); destruct (Z.ltb_spec i (JS.Uint32Array_length b));
    cbn [andb]; intros Hget; try discriminate; lia.
Qed.

(** The four bytes of element [i] and what surrounds them. *)
Lemma buffer_split (b : JS.ArrayBuffer) i :
  0 <= i < JS.Uint32Array_length b ->
  let n := Z.to_nat (4 * i) in
  b = firstn n b ++ firstn 4 (skipn n b) ++ skipn (n + 4) b
  /\ List.length (firstn n b) = n
  /\ List.length (firstn 4 (skipn n b)) = 4%nat.
Proof.
  intros Hi n. unfold JS.Uint32Array_length, JS.byteLength in Hi.
  pose proof (Z.mul_div_le (Z.of_nat (List.length b)) 4 ltac:(lia)).
  split; [|split].
  - rewrite <- (firstn_skipn n b) at 1. f_equal.
    rewrite <- (firstn_skipn 4 (skipn n b)) at 1. f_equal.
    rewrite skipn_skipn. f_equal. lia.
  - rewrite length_firstn. lia.
  - rewrite length_firstn, length_skipn. lia.
Qed.

Lemma window_replace {A} (pre old new post : list A) (n : nat) :
  List.length pre = n -> List.length old = 4%nat ->
  firstn n (pre ++ old ++ post) ++ new ++ skipn (n + 4) (pre ++ old ++ post)
  = pre ++ new ++ post.
Proof.
  intros Hpre Hold.
  rewrite firstn_app, firstn_all2, <- Hpre, Nat.sub_diag by lia.
  cbn [firstn]. rewrite app_nil_r. do 2 f_equal.
  rewrite skipn_app, skipn_all2 by lia.
  replace (List.length pre + 4 - List.length pre)%nat with 4%nat by lia.
  rewrite skipn_app, skipn_all2, Hold, Nat.sub_diag by lia. reflexivity.
Qed.

Lemma Uint32Array_set_set b i v v' :
  JS.Uint32Array_set (JS.Uint32Array_set b i v) i v' = JS.Uint32Array_set b i v'.
Proof.
  unfold JS.Uint32Array_set at 1 3. rewrite Uint32Array_set_length.
  destruct ((0 <=? i) && (i <? JS.Uint32Array_length b)) eqn:Hi; [|
    unfold JS.Uint32Array_set; now rewrite Hi].
  assert (Hi' : 0 <= i < JS.Uint32Array_length b) by lia.
  destruct (buffer_split b i Hi') as (Hb & Hpre & Hold). cbv zeta in *.
  unfold JS.Uint32Array_set. rewrite Hi.
  apply window_replace; [assumption|apply length_le_split].
Qed.

Lemma Uint32Array_set_get b i tile :
  JS.Uint32Array_get b i = Some tile -> JS.Uint32Array_set b i tile = b.
Proof.
  intros Hget.
  pose proof (Uint32Array_get_Some b i tile Hget) as Hi.
  pose proof (Uint32Array_get_range b i tile Hget) as Hrange.
  destruct (buffer_split b i Hi) as (Hb & Hpre & Hold). cbv zeta in *.
  unfold JS.Uint32Array_get in Hget. unfold JS.Uint32Array_set.
  replace ((0 <=? i) && (i <? JS.Uint32Array_length b)) with true in * by lia.
  assert (Htile : tile = le_combine (firstn 4 (skipn (Z.to_nat (4 * i)) b)))
    by congruence.
  rewrite ToUint32_small by assumption.
  pose proof (split_le_combine (firstn 4 (skipn (Z.to_nat (4 * i)) b)))
    as Hsplit.
  rewrite Hold in Hsplit. rewrite Htile, Hsplit. symmetry. exact Hb.
Qed.

Lemma Uint32Array_set_ToUint32 b i v v' :
  JS.ToUint32 v = JS.ToUint32 v' ->
  JS.Uint32Array_set b i v = JS.Uint32Array_set b i v'.
Proof. unfold JS.Uint32Array_set. now intros ->. Qed.

(** ** More on tiles *)

Section TilesMore.
Context {Quadtree : Type}.
Implicit Type W : World.t Quadtree.

Lemma with_data_same W : World.with_data W (World.data W) = W.
Proof. now destruct W. Qed.

Lemma setTileRaw_dropped W x y v :
  World.getTileRaw W x y = None -> World.setTileRaw W x y v = W.
Proof.
  intros Hget. unfold World.setTileRaw.
  rewrite Uint32Array_set_dropped by now apply Uint32Array_get_None.
  apply with_data_same.
Qed.

Lemma setTileRaw_setTileRaw W x y v v' :
  World.setTileRaw (World.setTileRaw W x y v) x y v' = World.setTileRaw W x y v'.
Proof.
  unfold World.setTileRaw, World.with_data. cbn.
  now rewrite Uint32Array_set_set.
Qed.

Lemma setTileRaw_ToUint32 W x y v v' :
  JS.ToUint32 v = JS.ToUint32 v' ->
  World.setTileRaw W x y v = World.setTileRaw W x y v'.
Proof.
  intros Heq. unfold World.setTileRaw.
  now rewrite (Uint32Array_set_ToUint32 _ _ v v' Heq).
Qed.

(** In bounds, the flat index identifies the cell. *)
Lemma index_injective W x y x' y' :
  World.in_bounds W x y -> World.in_bounds W x' y' ->
  y * World.width W + x = y' * World.width W + x' -> x = x' /\ y = y'.
Proof.
  unfold World.in_bounds. intros Hb Hb' Heq.
  assert (Hy : y = y').
  { destruct (Z.lt_trichotomy y y') as [Hlt|[Heq'|Hgt]]; [|assumption|].
    - assert (1 * World.width W <= (y' - y) * World.width W)
        by (apply Z.mul_le_mono_nonneg_r; lia).
      lia.
    - assert (1 * World.width W <= (y - y') * World.width W)
        by (apply Z.mul_le_mono_nonneg_r; lia).
      lia. }
  subst y'. lia.
Qed.

(** X4.  In a world whose buffer has [width * height * 4] bytes,
    [getTileRaw(x, y)] is defined exactly when the flat index
    [y * width + x] lies in the grid, whatever [x] and [y] are, and a
    defined tile is an unsigned 32-bit integer. *)
Theorem getTileRaw_defined_iff W x y :
  World.sized W ->
  (World.getTileRaw W x y <> None
   <-> 0 <= y * World.width W + x < World.width W * World.height W)
  /\ forall tile, World.getTileRaw W x y = Some tile -> 0 <= tile < 2 ^ 32.
Proof.
  intros Hs. pose proof (sized_length W Hs) as Hlen. split; [split|].
  - intros Hdef.
    destruct (World.getTileRaw W x y) as [tile|] eqn:Hget; [|contradiction].
    apply Uint32Array_get_Some in Hget. lia.
  - intros Hi.
    destruct (Uint32Array_get_defined (World.data W) (y * World.width W + x))
      as [tile Ht]; [lia|].
    unfold World.getTileRaw. rewrite Ht. discriminate.
  - intros tile. apply Uint32Array_get_range.
Qed.

Lemma getTileRaw_setTileRaw_other W x y v x' y' :
  World.in_bounds W x y -> World.in_bounds W x' y' -> (x', y') <> (x, y) ->
  World.getTileRaw (World.setTileRaw W x y v) x' y' = World.getTileRaw W x' y'.
Proof.
  intros Hb Hb' Hne.
  unfold World.getTileRaw, World.setTileRaw, World.with_data. cbn.
  apply Uint32Array_get_set_other. intros Heq.
  destruct (index_injective W x y x' y' Hb Hb' Heq). congruence.
Qed.

(** X5.  [setTileRaw] on an in-bounds cell stores the value modulo [2^32]
    (any integer, negative ones included) and changes no other in-bounds
    cell. *)
Theorem setTileRaw_frame W x y v x' y' :
  World.sized W -> World.in_bounds W x y -> World.in_bounds W x' y' ->
  World.getTileRaw (World.setTileRaw W x y v) x' y'
  = if (x' =? x) && (y' =? y) then Some (v mod 2 ^ 32)
    else World.getTileRaw W x' y'.
Proof.
  intros Hs Hb Hb'.
  destruct (Z.eqb_spec x' x) as [->|Hx]; [destruct (Z.eqb_spec y' y) as [->|Hy]|];
    cbn [andb].
  - now apply getTileRaw_setTileRaw.
  - apply getTileRaw_setTileRaw_other; congruence.
  - apply getTileRaw_setTileRaw_other; congruence.
Qed.

(** X6.  Raw writes to one cell: the last write wins, and writing back the
    tile that was read leaves the world as it was. *)
Theorem setTileRaw_overwrite W x y v v' :
  World.setTileRaw (World.setTileRaw W x y v) x y v' = World.setTileRaw W x y v'
  /\ forall tile, World.getTileRaw W x y = Some tile ->
                  World.setTileRaw W x y tile = W.
Proof.
  split; [apply setTileRaw_setTileRaw|].
  intros tile Hget. unfold World.setTileRaw.
  rewrite (Uint32Array_set_get _ _ _ Hget). apply with_data_same.
Qed.

(** X7.  Field access outside the grid: when the flat index of [(x, y)] is
    not in the grid, [getTileProp] returns 0 for every field, [getTile]
    returns five zeros, and [setTileProp] changes nothing. *)
Theorem field_access_outside W x y p v :
  World.sized W ->
  ~ 0 <= y * World.width W + x < World.width W * World.height W ->
  World.getTileProp W x y p = 0
  /\ World.getTile W x y = [0; 0; 0; 0; 0]
  /\ World.setTileProp W x y p v = W.
Proof.
  intros Hs Hi.
  assert (Hget : World.getTileRaw W x y = None)
    by (apply Uint32Array_get_undefined; now rewrite sized_length).
  split; [|split].
  - unfold World.getTileProp. rewrite Hget. now destruct p.
  - unfold World.getTile. now rewrite Hget.
  - unfold World.setTileProp. now apply setTileRaw_dropped.
Qed.

(** X8.  [getTile] returns an array of five values; the one at index
    [TILE_PROPS.K] is what [getTileProp] returns for the field of that
    name, and on a tile of the grid the five values, weighted by their
    offsets, add up to the tile without its reserved byte (bits 24..31). *)
Theorem getTile_by_TILE_PROPS W x y :
  (List.length (World.getTile W x y) = 5%nat
   /\ array_get (World.getTile W x y) (TILE_PROPS_value ENTITY_TYPE)
      = Some (World.getTileProp W x y entityType)
   /\ array_get (World.getTile W x y) (TILE_PROPS_value ENTITY_ID)
      = Some (World.getTileProp W x y entityId)
   /\ array_get (World.getTile W x y) (TILE_PROPS_value TERRAIN)
      = Some (World.getTileProp W x y terrain)
   /\ array_get (World.getTile W x y) (TILE_PROPS_value HOME_TRAIL)
      = Some (World.getTileProp W x y homeTrail)
   /\ array_get (World.getTile W x y) (TILE_PROPS_value FOOD_TRAIL)
      = Some (World.getTileProp W x y foodTrail))
  /\ forall tile a b c d e,
       World.getTileRaw W x y = Some tile ->
       World.getTile W x y = [a; b; c; d; e] ->
       tile = a + b * 2 ^ 4 + c * 2 ^ 16 + d * 2 ^ 18 + e * 2 ^ 21
              + tile / 2 ^ 24 * 2 ^ 24.
Proof.
  split; [repeat split|].
  intros tile a b c d e Ht Hfields.
  pose proof (Uint32Array_get_range _ _ _ Ht) as Hrange.
  unfold World.getTile in Hfields. rewrite Ht in Hfields.
  cbn [map World.tile_operand] in Hfields.
  assert (Hdec : forall p,
            JS.ushr (JS.band tile (BitField.mask (bitScheme p)))
                    (BitField.offset (bitScheme p))
            = (tile / 2 ^ BitField.offset (bitScheme p))
              mod 2 ^ BitField.length (bitScheme p)).
  { intros p. pose proof (getBitValue_as_div_mod tile p) as Heq.
    unfold getBitValue in Heq. cbv zeta in Heq. rewrite Heq.
    now rewrite (Z.mod_small tile (2 ^ 32)). }
  rewrite !Hdec in Hfields. cbn [bitScheme BitField.offset BitField.length]
    in Hfields.
  assert (Ha : a = (tile / 2 ^ 0) mod 2 ^ 4) by congruence.
  assert (Hb : b = (tile / 2 ^ 4) mod 2 ^ 12) by congruence.
  assert (Hc : c = (tile / 2 ^ 16) mod 2 ^ 2) by congruence.
  assert (Hd : d = (tile / 2 ^ 18) mod 2 ^ 3) by congruence.
  assert (He : e = (tile / 2 ^ 21) mod 2 ^ 3) by congruence.
  clear Hfields Hdec Ht. subst a b c d e.
  change (2 ^ 0) with 1. change (2 ^ 4) with 16. change (2 ^ 12) with 4096.
  change (2 ^ 16) with 65536. change (2 ^ 2) with 4. change (2 ^ 18) with 262144.
  change (2 ^ 3) with 8. change (2 ^ 21) with 2097152.
  change (2 ^ 24) with 16777216. change (2 ^ 32) with 4294967296 in Hrange.
  Z.div_mod_to_equations. lia.
Qed.

(** X9.  An in-range [setTileProp] as arithmetic: the stored tile becomes
    [tile + (v - old) * 2^offset], where [old] is the value the field had;
    nothing but the field's own bits changes. *)
Theorem setTileProp_arith W x y p v tile :
  World.getTileRaw W x y = Some tile ->
  0 <= v < 2 ^ BitField.length (bitScheme p) ->
  World.getTileRaw (World.setTileProp W x y p v) x y
  = Some (tile + (v - World.getTileProp W x y p)
                 * 2 ^ BitField.offset (bitScheme p)).
Proof.
  intros Ht Hv.
  rewrite (getTileRaw_setTileProp W x y p v tile Ht).
  rewrite setBitValue_arith by
    (assumption || exact (Uint32Array_get_range _ _ _ Ht)).
  unfold World.getTileProp. now rewrite Ht.
Qed.

(** X10.  [setTileProp] changes no other in-bounds tile, whatever value is
    written (in range or not). *)
Theorem setTileProp_frame W x y p v x' y' :
  World.in_bounds W x y -> World.in_bounds W x' y' ->
  (x', y') <> (x, y) ->
  World.getTileRaw (World.setTileProp W x y p v) x' y'
  = World.getTileRaw W x' y'.
Proof.
  intros Hb Hb' Hne. unfold World.setTileProp.
  now apply getTileRaw_setTileRaw_other.
Qed.

End TilesMore.


Lemma getTile_by_TILE_PROPS_witness :
  World.getTile (World.setTileRaw Sample.indexed5 0 0 0xAB12345) 0 0
  = [5; 0x234; 1; 4; 5]
  /\ 0xAB12345 = 5 + 0x234 * 2 ^ 4 + 1 * 2 ^ 16 + 4 * 2 ^ 18 + 5 * 2 ^ 21
                 + 0xAB12345 / 2 ^ 24 * 2 ^ 24.
Proof.
  split; [reflexivity|].
  apply (proj2 (getTile_by_TILE_PROPS
                  (World.setTileRaw Sample.indexed5 0 0 0xAB12345) 0 0)
           0xAB12345 5 0x234 1 4 5); reflexivity.
Defined.


Lemma getTileRaw_defined_iff_witness :
  World.getTileRaw Sample.indexed5 (-1) 1 <> None
  /\ World.getTileRaw Sample.indexed5 (-1) 0 = None.
Proof.
  assert (Hs : World.sized Sample.indexed5) by reflexivity.
  split.
  - apply (proj1 (getTileRaw_defined_iff Sample.indexed5 (-1) 1 Hs)).
    cbn. lia.
  - destruct (World.getTileRaw Sample.indexed5 (-1) 0) eqn:Hget; [|reflexivity].
    exfalso.
    assert (Hdef : World.getTileRaw Sample.indexed5 (-1) 0 <> None)
      by (rewrite Hget; discriminate).
    apply (proj1 (getTileRaw_defined_iff Sample.indexed5 (-1) 0 Hs)) in Hdef.
    cbn in Hdef. lia.
Defined.

Lemma setTileRaw_frame_witness :
  World.getTileRaw (World.setTileRaw Sample.indexed5 3 2 (-1)) 3 2
  = Some 0xFFFFFFFF
  /\ World.getTileRaw (World.setTileRaw Sample.indexed5 3 2 (-1)) 2 3
     = World.getTileRaw Sample.indexed5 2 3.
Proof.
  assert (Hs : World.sized Sample.indexed5) by reflexivity.
  split.
  - apply (setTileRaw_frame Sample.indexed5 3 2 (-1) 3 2 Hs);
      unfold World.in_bounds; cbn; lia.
  - apply (setTileRaw_frame Sample.indexed5 3 2 (-1) 2 3 Hs);
      unfold World.in_bounds; cbn; lia.
Defined.

Lemma setTileRaw_overwrite_witness :
  World.setTileRaw Sample.indexed5 3 2 13 = Sample.indexed5.
Proof.
  apply (proj2 (setTileRaw_overwrite Sample.indexed5 3 2 0 0)). reflexivity.
Defined.

Lemma field_access_outside_witness :
  World.getTileProp Sample.indexed5 0 5 terrain = 0
  /\ World.getTile Sample.indexed5 0 5 = [0; 0; 0; 0; 0]
  /\ World.setTileProp Sample.indexed5 0 5 terrain 3 = Sample.indexed5.
Proof.
  apply (field_access_outside Sample.indexed5 0 5 terrain 3).
  - reflexivity.
  - cbn. lia.
Defined.

Lemma setTileProp_arith_witness :
  World.getTileRaw (World.setTileProp Sample.indexed5 3 2 entityId 100) 3 2
  = Some (13 + (100 - 0) * 2 ^ 4).
Proof.
  apply (setTileProp_arith Sample.indexed5 3 2 entityId 100 13).
  - reflexivity.
  - cbn. lia.
Defined.

Lemma setTileProp_frame_witness :
  World.getTileRaw (World.setTileProp Sample.indexed5 3 2 terrain 0xFFFF) 4 2
  = World.getTileRaw Sample.indexed5 4 2.
Proof.
  apply (setTileProp_frame Sample.indexed5 3 2 terrain 0xFFFF 4 2).
  - unfold World.in_bounds. cbn. lia.
  - unfold World.in_bounds. cbn. lia.
  - congruence.
Defined.


(** ** Composing field writes *)

Lemma setBitValue_twice_same tile p v1 v2 :
  0 <= v1 < 2 ^ BitField.length (bitScheme p) ->
  JS.ToUint32 (setBitValue (JS.ToUint32 (setBitValue tile p v1)) p v2)
  = JS.ToUint32 (setBitValue tile p v2).
Proof.
  intros Hv1. pose proof (scheme_bounds p) as (Ho & Hl & Hs).
  apply Z.bits_inj'. intros i Hi.
  rewrite !ToUint32_testbit.
  destruct (Z.ltb_spec i 32) as [Hlt|Hge]; [|reflexivity]. cbn [andb].
  rewrite !setBitValue_testbit, ToUint32_testbit, setBitValue_testbit by lia.
  replace (i <? 32) with true by lia. cbn [andb].
  destruct (in_field p i) eqn:Hin; cbn [negb];
    rewrite ?andb_false_r, ?andb_true_r; [reflexivity|].
  replace (Z.testbit v1 (i - BitField.offset (bitScheme p))) with false;
    [reflexivity|].
  symmetry. unfold in_field in Hin.
  destruct (Z.ltb_spec (i - BitField.offset (bitScheme p)) 0).
  - now apply Z.testbit_neg_r.
  - rewrite <- (Z.mod_small v1 (2 ^ BitField.length (bitScheme p))) by lia.
    apply Z.mod_pow2_bits_high. lia.
Qed.

Lemma in_range_bit p v i :
  0 <= v < 2 ^ BitField.length (bitScheme p) ->
  Z.testbit v (i - BitField.offset (bitScheme p)) = true ->
  in_field p i = true.
Proof.
  intros Hv Hbit. pose proof (scheme_bounds p) as (Ho & Hl & Hs).
  unfold in_field.
  destruct (Z.ltb_spec (i - BitField.offset (bitScheme p)) 0).
  - rewrite Z.testbit_neg_r in Hbit by assumption. discriminate.
  - destruct (Z.ltb_spec (i - BitField.offset (bitScheme p))
                         (BitField.length (bitScheme p))); [lia|].
    rewrite <- (Z.mod_small v (2 ^ BitField.length (bitScheme p))) in Hbit
      by lia.
    rewrite Z.mod_pow2_bits_high in Hbit by lia. discriminate.
Qed.

Lemma setBitValue_commute tile p q v u :
  p <> q ->
  0 <= v < 2 ^ BitField.length (bitScheme p) ->
  0 <= u < 2 ^ BitField.length (bitScheme q) ->
  JS.ToUint32 (setBitValue (JS.ToUint32 (setBitValue tile p v)) q u)
  = JS.ToUint32 (setBitValue (JS.ToUint32 (setBitValue tile q u)) p v).
Proof.
  intros Hpq Hv Hu.
  apply Z.bits_inj'. intros i Hi.
  rewrite !ToUint32_testbit.
  destruct (Z.ltb_spec i 32) as [Hlt|Hge]; [|reflexivity]. cbn [andb].
  rewrite !setBitValue_testbit, !ToUint32_testbit, !setBitValue_testbit by lia.
  replace (i <? 32) with true by lia. cbn [andb].
  destruct (Z.testbit v (i - BitField.offset (bitScheme p))) eqn:Hbv;
    destruct (Z.testbit u (i - BitField.offset (bitScheme q))) eqn:Hbu;
    cbn [orb].
  - reflexivity.
  - apply (in_range_bit p v i Hv) in Hbv.
    now rewrite (fields_disjoint p q i Hpq Hbv).
  - apply (in_range_bit q u i Hu) in Hbu.
    now rewrite (fields_disjoint q p i (not_eq_sym Hpq) Hbu).
  - destruct (Z.testbit tile i), (in_field p i), (in_field q i); reflexivity.
Qed.

Section FieldWrites.
Context {Quadtree : Type}.
Implicit Type W : World.t Quadtree.

(** Two field writes on one cell are one raw write. *)
Lemma setTileProp_setTileProp W x y p q v u :
  World.setTileProp (World.setTileProp W x y p v) x y q u
  = World.setTileRaw W x y
      (setBitValue
         (JS.ToUint32
            (setBitValue (World.tile_operand (World.getTileRaw W x y)) p v))
         q u).
Proof.
  destruct (World.getTileRaw W x y) as [tile|] eqn:Ht.
  - unfold World.setTileProp at 1.
    rewrite (getTileRaw_setTileProp W x y p v tile Ht).
    cbn [World.tile_operand]. unfold World.setTileProp. rewrite Ht.
    apply setTileRaw_setTileRaw.
  - assert (Hsame : forall r s, World.setTileProp W x y r s = W)
      by (intros; unfold World.setTileProp; now apply setTileRaw_dropped).
    rewrite !Hsame. symmetry. now apply setTileRaw_dropped.
Qed.

(** X11.  Writing a field twice: when the first value fits the field, only
    the second write shows; the world is the one the second write alone
    gives, at every coordinate. *)
Theorem setTileProp_overwrite W x y p v1 v2 :
  0 <= v1 < 2 ^ BitField.length (bitScheme p) ->
  World.setTileProp (World.setTileProp W x y p v1) x y p v2
  = World.setTileProp W x y p v2.
Proof.
  intros Hv1. rewrite setTileProp_setTileProp. unfold World.setTileProp.
  apply setTileRaw_ToUint32. now apply setBitValue_twice_same.
Qed.

(** X12.  In-range writes to two different fields of one tile commute: both
    orders give the same world. *)
Theorem setTileProp_commute W x y p q v u :
  p <> q ->
  0 <= v < 2 ^ BitField.length (bitScheme p) ->
  0 <= u < 2 ^ BitField.length (bitScheme q) ->
  World.setTileProp (World.setTileProp W x y p v) x y q u
  = World.setTileProp (World.setTileProp W x y q u) x y p v.
Proof.
  intros Hpq Hv Hu. rewrite !setTileProp_setTileProp.
  apply setTileRaw_ToUint32. now apply setBitValue_commute.
Qed.

(** X13.  A world constructed without a buffer is blank: every in-bounds
    tile is 0, and so is every field of it. *)
Theorem fresh_world_blank allocatable w h ents W x y :
  World.constructor (Quadtree := Quadtree) allocatable w h ents None = inr W ->
  World.in_bounds W x y ->
  World.getTileRaw W x y = Some 0
  /\ forall p, World.getTileProp W x y p = 0.
Proof.
  intros HW Hb.
  destruct (constructor_sized allocatable w h ents None W HW) as (Hs & Hw & Hh).
  assert (Hdata : World.data W = repeat Byte.x00 (Z.to_nat (w * h * 4))).
  { unfold World.constructor in HW.
    destruct (JS.new_ArrayBuffer allocatable (w * h * 4)) as [err|b] eqn:Hnew;
      [discriminate|].
    apply new_ArrayBuffer_byteLength in Hnew as [_ Hb0].
    destruct (JS.Uint32Array_viewable b); [|discriminate].
    assert (W = World.mk w h b match ents with Some l => l | None => [] end [])
      by congruence.
    subst W. exact Hb0. }
  assert (Hraw : World.getTileRaw W x y = Some 0).
  { pose proof (in_bounds_index W x y Hb) as Hi.
    pose proof (sized_length W Hs) as Hlen.
    unfold World.getTileRaw, JS.Uint32Array_get.
    replace ((0 <=? y * World.width W + x)
             && (y * World.width W + x <? JS.Uint32Array_length (World.data W)))
      with true by lia.
    f_equal. rewrite Hdata.
    set (k := Z.to_nat (4 * (y * World.width W + x))).
    assert (Hk : (k + 4 <= Z.to_nat (w * h * 4))%nat) by (subst k; lia).
    replace (Z.to_nat (w * h * 4))
      with (k + (4 + (Z.to_nat (w * h * 4) - k - 4)))%nat by lia.
    rewrite !repeat_app, skipn_app, skipn_all2 by (rewrite repeat_length; lia).
    rewrite repeat_length, Nat.sub_diag. cbn [skipn app].
    rewrite firstn_app, firstn_all2 by (rewrite repeat_length; lia).
    rewrite repeat_length. cbn [Nat.sub firstn]. rewrite app_nil_r.
    apply le_combine_0. }
  split; [assumption|].
  intros p. unfold World.getTileProp. rewrite Hraw. now destruct p.
Qed.

End FieldWrites.

Lemma setTileProp_overwrite_witness :
  World.setTileProp (World.setTileProp Sample.indexed5 3 2 terrain 3)
    3 2 terrain 1
  = World.setTileProp Sample.indexed5 3 2 terrain 1.
Proof.
  apply (setTileProp_overwrite Sample.indexed5 3 2 terrain 3 1). cbn. lia.
Defined.

Lemma setTileProp_commute_witness :
  World.setTileProp (World.setTileProp Sample.indexed5 3 2 terrain 3)
    3 2 entityId 100
  = World.setTileProp (World.setTileProp Sample.indexed5 3 2 entityId 100)
      3 2 terrain 3.
Proof.
  apply (setTileProp_commute Sample.indexed5 3 2 terrain entityId 3 100).
  - discriminate.
  - cbn. lia.
  - cbn. lia.
Defined.

Lemma fresh_world_blank_witness :
  World.getTileRaw Sample.empty5 4 4 = Some 0
  /\ forall p, World.getTileProp Sample.empty5 4 4 p = 0.
Proof.
  apply (fresh_world_blank Sample.allocatable 5 5 None Sample.empty5 4 4).
  - reflexivity.
  - unfold World.in_bounds. cbn. lia.
Defined.

(** ** More on sets and maps *)

Lemma delete_add e s : EntitySet.delete e (EntitySet.add e s) = EntitySet.delete e s.
Proof.
  unfold EntitySet.add. destruct (EntitySet.has e s); [reflexivity|].
  unfold EntitySet.delete. rewrite filter_app. cbn [filter].
  replace (same_entity e e) with true by (symmetry; now apply same_entity_eq).
  cbn [negb]. apply app_nil_r.
Qed.

Lemma add_NoDup e s : NoDup s -> NoDup (EntitySet.add e s).
Proof.
  intros Hs. unfold EntitySet.add.
  destruct (EntitySet.has e s) eqn:Hhas; [assumption|].
  apply NoDup_app; [assumption|repeat constructor; intros []|].
  intros a Ha [<-|[]].
  apply has_In in Ha. congruence.
Qed.

Lemma delete_NoDup e s : NoDup s -> NoDup (EntitySet.delete e s).
Proof. apply NoDup_filter. Qed.

Section MoreMapFacts.
Context {V : Type}.
Implicit Type m : StringMap.t V.

Lemma get_None_keys k m :
  StringMap.get k m = None <-> ~ In k (map fst m).
Proof.
  induction m as [|[k' v'] m IH]; cbn [StringMap.get map fst In]; [tauto|].
  destruct (String.eqb_spec k k') as [->|Hne].
  - split; [discriminate|tauto].
  - rewrite IH. intuition congruence.
Qed.

Lemma get_In_values k v m :
  StringMap.get k m = Some v -> In v (StringMap.values m).
Proof.
  unfold StringMap.values.
  induction m as [|[k' v'] m IH]; cbn [StringMap.get map snd In];
    [discriminate|].
  destruct (String.eqb k k'); [intros [= ->]; now left|auto].
Qed.

Lemma set_keys k v m :
  map fst (StringMap.set k v m)
  = match StringMap.get k m with
    | Some _ => map fst m
    | None => map fst m ++ [k]
    end.
Proof.
  induction m as [|[k' v'] m IH]; cbn [StringMap.get StringMap.set map fst app];
    [reflexivity|].
  destruct (String.eqb k k'); cbn [map fst]; [reflexivity|].
  rewrite IH. now destruct (StringMap.get k m).
Qed.

Lemma set_keys_NoDup k v m :
  NoDup (map fst m) -> NoDup (map fst (StringMap.set k v m)).
Proof.
  intros Hm. rewrite set_keys.
  destruct (StringMap.get k m) eqn:Hget; [assumption|].
  apply NoDup_app; [assumption|repeat constructor; intros []|].
  intros a Ha [<-|[]]. now apply get_None_keys in Hget.
Qed.

Lemma set_Forall_values (P : V -> Prop) k v m :
  Forall (fun kv => P (snd kv)) m -> P v ->
  Forall (fun kv => P (snd kv)) (StringMap.set k v m).
Proof.
  intros Hm Hv.
  induction m as [|[k' v'] m IH]; cbn [StringMap.set].
  - repeat constructor. exact Hv.
  - inversion Hm as [|? ? Hhd Htl]; subst.
    destruct (String.eqb k k'); constructor; auto.
Qed.

Lemma get_Forall_values (P : V -> Prop) k v m :
  Forall (fun kv => P (snd kv)) m -> StringMap.get k m = Some v -> P v.
Proof.
  intros Hm.
  induction m as [|[k' v'] m IH]; cbn [StringMap.get]; [discriminate|].
  inversion Hm as [|? ? Hhd Htl]; subst.
  destruct (String.eqb k k'); [intros [= <-]; exact Hhd|auto].
Qed.

Lemma get_map_values {U : Type} (f : V -> U) k m :
  StringMap.get k (map (fun kv : string * V => (fst kv, f (snd kv))) m)
  = option_map f (StringMap.get k m).
Proof.
  induction m as [|[k' v'] m IH]; cbn [StringMap.get map fst snd];
    [reflexivity|].
  destruct (String.eqb k k'); [reflexivity|exact IH].
Qed.
End MoreMapFacts.

Lemma fold_left_concat {A B : Type} (f : A -> list B) (l : list A) acc :
  fold_left (fun found a => found ++ f a) l acc = acc ++ flat_map f l.
Proof.
  revert acc. induction l as [|a l IH]; intros acc; cbn [fold_left flat_map].
  - now rewrite app_nil_r.
  - now rewrite IH, app_assoc.
Qed.

(** ** More on entities and layers *)

Section LayersMore.
Context {Quadtree : Type} {Quadtree_storage : EntityStorage Quadtree}.
Variable new_Quadtree : Rectangle.t -> Z -> Quadtree.
Variable pos : Entity -> Vector.t.
Implicit Type W : World.t Quadtree.

Lemma constructor_shape allocatable w h ents worldData W :
  World.constructor allocatable w h ents worldData = inr W ->
  exists d,
    W = World.mk w h d match ents with Some l => l | None => [] end [].
Proof.
  intros HW. unfold World.constructor in HW.
  destruct worldData as [buf|].
  - destruct (negb (JS.byteLength buf =? w * h * 4)); [discriminate|].
    destruct (JS.Uint32Array_viewable buf); [|discriminate].
    exists buf. congruence.
  - destruct (JS.new_ArrayBuffer allocatable (w * h * 4)) as [err|b]; [discriminate|].
    destruct (JS.Uint32Array_viewable b); [|discriminate].
    exists b. congruence.
Qed.

(** X14.  The constructor keeps the entities it is given as the global
    list but puts them in no layer: the new world has no layer, so every
    query on it, ["ALL"] included, is empty. *)
Theorem constructor_entities allocatable w h ents worldData W :
  World.constructor allocatable w h ents worldData = inr W ->
  World.entities W = match ents with Some l => l | None => [] end
  /\ World.entityLayers W = []
  /\ forall range layerId, World.query W range layerId = [].
Proof.
  intros HW. destruct (constructor_shape allocatable w h ents worldData W HW) as [d ->].
  cbn. split; [reflexivity|]. split; [reflexivity|].
  intros range layerId. unfold World.query. cbn.
  now destruct (String.eqb layerId "ALL").
Qed.

(** X15.  The constructor fails with a RangeError exactly when no buffer
    is supplied and [new ArrayBuffer(width * height * 4)] throws: the byte
    count is negative or above [2^53 - 1], or the engine cannot allocate
    it.  With a supplied buffer its only failure is the size mismatch. *)
Theorem constructor_RangeError allocatable w h ents worldData :
  World.constructor (Quadtree := Quadtree) allocatable w h ents worldData
  = inl JS.RangeError
  <-> worldData = None
      /\ (w * h * 4 < 0 \/ 2 ^ 53 - 1 < w * h * 4
          \/ allocatable (w * h * 4) = false).
Proof.
  unfold World.constructor. split.
  - destruct worldData as [buf|].
    + destruct (Z.eqb_spec (JS.byteLength buf) (w * h * 4)) as [Heq|Hne];
        cbn [negb]; [|discriminate].
      rewrite (viewable_multiple_of_4 buf (w * h) Heq). discriminate.
    + intros Hfail. split; [reflexivity|].
      destruct (Z.ltb_spec (w * h * 4) 0); [now left|].
      destruct (Z.ltb_spec (2 ^ 53 - 1) (w * h * 4)); [now right; left|].
      destruct (allocatable (w * h * 4)) eqn:Ha; [|now right; right].
      exfalso. rewrite new_ArrayBuffer_allocated in Hfail by (assumption || lia).
      rewrite (viewable_multiple_of_4 _ (w * h)) in Hfail; [discriminate|].
      unfold JS.byteLength. rewrite repeat_length. lia.
  - intros [-> Hthrows]. unfold JS.new_ArrayBuffer.
    destruct (Z.ltb_spec (w * h * 4) 0); [reflexivity|].
    destruct (Z.ltb_spec (2 ^ 53 - 1) (w * h * 4)); [reflexivity|].
    cbn [orb]. destruct Hthrows as [Hneg|[Hbig|Ha]]; [lia|lia|].
    now rewrite Ha.
Qed.

Lemma insert_other_layers W e L L' :
  L' <> L ->
  StringMap.get L' (World.entityLayers (World.insert new_Quadtree W e L))
  = StringMap.get L' (World.entityLayers W).
Proof.
  intros HL'. unfold World.insert.
  destruct (StringMap.get L (World.entityLayers W));
    cbn [World.entityLayers]; now rewrite !get_set_other.
Qed.

Lemma insert_named_layer W e L :
  StringMap.get L (World.entityLayers (World.insert new_Quadtree W e L))
  = Some (World.mkLayer
            (EntitySet.add e
               match StringMap.get L (World.entityLayers W) with
               | Some layer0 => World.layer_entities layer0
               | None => []
               end)
            (snd (storage_insert e
                    match StringMap.get L (World.entityLayers W) with
                    | Some layer0 => World.qtree layer0
                    | None =>
                        new_Quadtree
                          (Rectangle.mk (inject_Z (World.width W) / 2)
                                        (inject_Z (World.height W) / 2)
                                        (inject_Z (World.width W) / 2)
                                        (inject_Z (World.height W) / 2))
                          quadtreeCapacity
                    end))).
Proof.
  unfold World.insert.
  destruct (StringMap.get L (World.entityLayers W));
    cbn [World.entityLayers World.layer_entities World.qtree];
    apply get_set_same.
Qed.

(** X16.  [insert] works on the named layer only.  A missing layer is
    created, last in the map, with the entity as its only member and a
    Quadtree of capacity 4 whose boundary is centred at
    [(width/2, height/2)] with half-extents [(width/2, height/2)]; an
    existing layer gets the entity added to its set and passed to its
    Quadtree.  Every other layer is left as it is. *)
Theorem insert_layer W e L :
  match StringMap.get L (World.entityLayers W) with
  | Some layer =>
      StringMap.get L (World.entityLayers (World.insert new_Quadtree W e L))
      = Some (World.mkLayer (EntitySet.add e (World.layer_entities layer))
                (snd (storage_insert e (World.qtree layer))))
      /\ map fst (World.entityLayers (World.insert new_Quadtree W e L))
         = map fst (World.entityLayers W)
  | None =>
      StringMap.get L (World.entityLayers (World.insert new_Quadtree W e L))
      = Some (World.mkLayer [e]
                (snd (storage_insert e
                        (new_Quadtree
                           (Rectangle.mk (inject_Z (World.width W) / 2)
                                         (inject_Z (World.height W) / 2)
                                         (inject_Z (World.width W) / 2)
                                         (inject_Z (World.height W) / 2))
                           4))))
      /\ map fst (World.entityLayers (World.insert new_Quadtree W e L))
         = map fst (World.entityLayers W) ++ [L]
  end
  /\ forall L', L' <> L ->
       StringMap.get L' (World.entityLayers (World.insert new_Quadtree W e L))
       = StringMap.get L' (World.entityLayers W).
Proof.
  unfold World.insert.
  destruct (StringMap.get L (World.entityLayers W)) as [layer|] eqn:Hget;
    cbn [World.entityLayers World.layer_entities World.qtree].
  - split; [split|].
    + apply get_set_same.
    + now rewrite set_keys, Hget.
    + intros L' HL'. now apply get_set_other.
  - split; [split|].
    + apply get_set_same.
    + rewrite !set_keys, Hget, get_set_same. reflexivity.
    + intros L' HL'. now rewrite !get_set_other.
Qed.

(** X17.  No method deletes a layer, and [remove] and [update] create
    none: after [remove] or [update] the layer names are those before, in
    the same order, also when [remove] has emptied the layer's set. *)
Theorem layers_persist W e L :
  map fst (World.entityLayers (snd (World.remove W e L)))
  = map fst (World.entityLayers W)
  /\ map fst (World.entityLayers (World.update W))
     = map fst (World.entityLayers W)
  /\ forall L',
       StringMap.get L' (World.entityLayers W) <> None ->
       StringMap.get L' (World.entityLayers (World.insert new_Quadtree W e L))
       <> None.
Proof.
  split; [|split].
  - unfold World.remove.
    destruct (StringMap.get L (World.entityLayers W)) eqn:Hget;
      cbn [snd World.entityLayers]; [|reflexivity].
    now rewrite set_keys, Hget.
  - unfold World.update. cbn [World.entityLayers].
    rewrite map_map. reflexivity.
  - intros L' Hsome.
    destruct (String.eqb_spec L' L) as [->|Hne].
    + destruct (insert_member new_Quadtree W e L) as [(layer & Hget & _) _].
      rewrite Hget. discriminate.
    + now rewrite insert_other_layers.
Qed.

(** X18.  Layers are isolated: [insert] and [remove] on layer [L] leave the
    result of every query against another named layer unchanged. *)
Theorem query_other_layer W e L L' range :
  L' <> L -> L' <> "ALL"%string ->
  World.query (World.insert new_Quadtree W e L) range L'
  = World.query W range L'
  /\ World.query (snd (World.remove W e L)) range L'
     = World.query W range L'.
Proof.
  intros Hne Hall. apply String.eqb_neq in Hall.
  unfold World.query. rewrite Hall. split.
  - now rewrite insert_other_layers.
  - destruct (StringMap.get L (World.entityLayers W)) as [layer|] eqn:Hget.
    + destruct (remove_existing_layer W e L layer Hget) as (_ & _ & Hother).
      now rewrite Hother.
    + destruct (remove_missing_layer W e L Hget) as [_ Hsame].
      now rewrite Hsame.
Qed.

(** X19.  A query against ["ALL"] is the concatenation, in the order the
    layers were created, of the queries against each layer's Quadtree; so
    whatever a query against one layer finds, the query against ["ALL"]
    finds too. *)
Theorem query_ALL W range :
  World.query W range "ALL"
  = flat_map (fun layer => storage_query range [] (World.qtree layer))
             (StringMap.values (World.entityLayers W))
  /\ forall L e, In e (World.query W range L) ->
                 In e (World.query W range "ALL").
Proof.
  assert (Hall : World.query W range "ALL"
                 = flat_map (fun layer => storage_query range []
                                            (World.qtree layer))
                     (StringMap.values (World.entityLayers W))).
  { unfold World.query. cbn [String.eqb Ascii.eqb Bool.eqb].
    now rewrite fold_left_concat. }
  split; [assumption|].
  intros L e Hin.
  destruct (String.eqb_spec L "ALL") as [->|Hne]; [assumption|].
  rewrite Hall. unfold World.query in Hin.
  apply String.eqb_neq in Hne. rewrite Hne in Hin.
  destruct (StringMap.get L (World.entityLayers W)) as [layer|] eqn:Hget;
    [|destruct Hin].
  apply in_flat_map. exists layer. split; [|assumption].
  now apply (get_In_values L).
Qed.

(** X20.  [insert] followed by [remove] of the same entity on the same
    layer: [remove] returns the entity; the entity is not a member of the
    layer afterwards, even if it was one before; the global list is the
    list before when the entity did not occur in it, and otherwise it has
    lost the first occurrence of the entity and gained one at the end. *)
Theorem insert_then_remove W e L :
  let W' := World.insert new_Quadtree W e L in
  let W'' := snd (World.remove W' e L) in
  fst (World.remove W' e L) = Some e
  /\ (exists layer,
        StringMap.get L (World.entityLayers W'') = Some layer
        /\ EntitySet.has e (World.layer_entities layer) = false
        /\ World.layer_entities layer
           = EntitySet.delete e
               match StringMap.get L (World.entityLayers W) with
               | Some layer0 => World.layer_entities layer0
               | None => []
               end)
  /\ (~ In e (World.entities W) -> World.entities W'' = World.entities W)
  /\ (forall l1 l2, World.entities W = l1 ++ e :: l2 -> ~ In e l1 ->
                    World.entities W'' = l1 ++ l2 ++ [e]).
Proof.
  cbv zeta.
  set (W' := World.insert new_Quadtree W e L).
  assert (Hents : World.entities W' = World.entities W ++ [e])
    by apply insert_member.
  assert (Hlayer : exists layer',
            StringMap.get L (World.entityLayers W') = Some layer'
            /\ World.layer_entities layer'
               = EntitySet.add e
                   match StringMap.get L (World.entityLayers W) with
                   | Some layer0 => World.layer_entities layer0
                   | None => []
                   end).
  { eexists. split; [apply insert_named_layer|reflexivity]. }
  destruct Hlayer as (layer' & Hget' & Hset').
  destruct (remove_existing_layer W' e L layer' Hget') as (Hres & Hget'' & _).
  split; [assumption|]. split.
  { eexists. split; [exact Hget''|]. cbn [World.layer_entities].
    split; [apply has_delete|]. rewrite Hset'. apply delete_add. }
  assert (Hfirst : forall l1 l2, World.entities W' = l1 ++ e :: l2 ->
            ~ In e l1 -> World.entities (snd (World.remove W' e L)) = l1 ++ l2).
  { intros l1 l2 Hl Hl1.
    destruct (remove_entities W' e L) as [[Hnin _]|(k1 & k2 & Hk & Hk1 & Hk')].
    - exfalso. apply Hnin. rewrite Hl. apply in_or_app. right. now left.
    - rewrite Hk'. rewrite Hl in Hk. clear - Hk Hl1 Hk1.
      revert k1 Hk Hk1.
      induction l1 as [|a l1 IH]; intros [|b k1] Hk Hk1; cbn in *.
      + congruence.
      + exfalso. apply Hk1. left. congruence.
      + exfalso. apply Hl1. left. congruence.
      + injection Hk as Hab Hk. subst b. f_equal.
        apply IH; [tauto|assumption|tauto]. }
  split.
  - intros Hnin.
    rewrite (Hfirst (World.entities W) []); [apply app_nil_r| |assumption].
    exact Hents.
  - intros l1 l2 Hl Hl1. apply Hfirst; [|assumption].
    rewrite Hents, Hl, <- app_assoc. reflexivity.
Qed.

(** X21.  [update] rebuilds the Quadtrees and nothing else: the grid, the
    global list and every layer's membership set are unchanged, and each
    layer's Quadtree is its cleared old tree with the members inserted in
    the set's order. *)
Theorem update_rebuilds W L :
  World.data (World.update W) = World.data W
  /\ World.entities (World.update W) = World.entities W
  /\ StringMap.get L (World.entityLayers (World.update W))
     = option_map
         (fun layer =>
            World.mkLayer (World.layer_entities layer)
              (fold_left (fun q e => snd (storage_insert e q))
                         (World.layer_entities layer)
                         (storage_clear (World.qtree layer))))
         (StringMap.get L (World.entityLayers W)).
Proof.
  split; [reflexivity|]. split; [reflexivity|].
  unfold World.update. cbn [World.entityLayers].
  apply (get_map_values
           (fun layer =>
              World.mkLayer (World.layer_entities layer)
                (fold_left (fun q e => snd (storage_insert e q))
                           (World.layer_entities layer)
                           (storage_clear (World.qtree layer))))).
Qed.

(** X22.  When clearing the storage forgets what was inserted (the cleared
    tree does not depend on earlier inserts or clears), [update] is
    idempotent: a second [update] in a row changes nothing. *)
Theorem update_idempotent W :
  (forall e q, storage_clear (snd (storage_insert e q)) = storage_clear q) ->
  (forall q, storage_clear (storage_clear q) = storage_clear q) ->
  World.update (World.update W) = World.update W.
Proof.
  intros Hforget Hclear.
  assert (Hfold : forall l q,
            storage_clear (fold_left (fun q e => snd (storage_insert e q)) l q)
            = storage_clear q).
  { induction l as [|a l IH]; intros q; cbn [fold_left]; [reflexivity|].
    now rewrite IH, Hforget. }
  unfold World.update. cbn [World.width World.height World.data World.entities
                              World.entityLayers].
  f_equal. rewrite map_map. apply map_ext. intros [k layer].
  cbn [fst snd World.layer_entities World.qtree].
  now rewrite Hfold, Hclear.
Qed.

(** X23.  Tiles and entities are independent: [insert], [remove] and
    [update] change no tile, and [setTileRaw] and [setTileProp] change
    neither the global list nor the result of any query. *)
Theorem tiles_entities_independent W e L x y p v range :
  World.getTileRaw (World.insert new_Quadtree W e L) x y = World.getTileRaw W x y
  /\ World.getTileRaw (snd (World.remove W e L)) x y = World.getTileRaw W x y
  /\ World.getTileRaw (World.update W) x y = World.getTileRaw W x y
  /\ World.entities (World.setTileRaw W x y v) = World.entities W
  /\ World.entities (World.setTileProp W x y p v) = World.entities W
  /\ World.query (World.setTileRaw W x y v) range L = World.query W range L
  /\ World.query (World.setTileProp W x y p v) range L = World.query W range L.
Proof.
  split; [|split; [|repeat split]].
  - unfold World.insert, World.getTileRaw.
    now destruct (StringMap.get L (World.entityLayers W)).
  - unfold World.getTileRaw.
    now destruct (remove_grid W e L) as (-> & _ & ->).
Qed.

(** X24.  Every world that the constructor and the methods can produce
    has a buffer of exactly [width * height * 4] bytes. *)
Theorem reachable_sized W : reachable new_Quadtree W -> World.sized W.
Proof.
  induction 1 as [allocatable w h ents wd W HW| | | | |].
  - now apply (constructor_sized allocatable w h ents wd W).
  - now apply insert_sized.
  - now apply remove_sized.
  - now apply update_sized.
  - now apply setTileRaw_sized.
  - now apply setTileProp_sized.
Qed.

(** X25.  In every such world the layer names are distinct and no layer's
    membership set holds an entity twice. *)
Theorem reachable_containers_ok W :
  reachable new_Quadtree W -> containers_ok W.
Proof.
  unfold containers_ok.
  induction 1 as [allocatable w h ents wd W HW|W e L _ [Hk Hs]|W e L _ [Hk Hs]
                  |W _ [Hk Hs]|W x y v _ IH|W x y p v _ IH].
  - destruct (constructor_shape allocatable w h ents wd W HW) as [d ->].
    cbn. split; constructor.
  - unfold World.insert.
    destruct (StringMap.get L (World.entityLayers W)) as [layer|] eqn:Hget;
      cbn [World.entityLayers].
    + split; [now apply set_keys_NoDup|].
      apply (set_Forall_values (fun l => NoDup (World.layer_entities l))); [assumption|]. cbn [World.layer_entities].
      apply add_NoDup.
      exact (get_Forall_values (fun l => NoDup (World.layer_entities l))
               L layer _ Hs Hget).
    + split; [now do 2 apply set_keys_NoDup|].
      apply (set_Forall_values (fun l => NoDup (World.layer_entities l))); [apply (set_Forall_values (fun l => NoDup (World.layer_entities l)))|].
      * assumption.
      * constructor.
      * cbn [World.layer_entities]. apply add_NoDup. constructor.
  - unfold World.remove.
    destruct (StringMap.get L (World.entityLayers W)) as [layer|] eqn:Hget;
      cbn [snd World.entityLayers]; [|split; assumption].
    split; [now apply set_keys_NoDup|].
    apply (set_Forall_values (fun l => NoDup (World.layer_entities l))); [assumption|]. cbn [World.layer_entities].
    apply delete_NoDup.
    exact (get_Forall_values (fun l => NoDup (World.layer_entities l))
             L layer _ Hs Hget).
  - unfold World.update. cbn [World.entityLayers]. split.
    + now rewrite map_map.
    + apply Forall_map. cbn [snd World.layer_entities]. exact Hs.
  - exact IH.
  - exact IH.
Qed.

End LayersMore.

(** ** The further properties at concrete worlds *)

Lemma bitScheme_consistent_witness :
  Z.land (BitField.mask (bitScheme terrain)) (BitField.mask (bitScheme homeTrail))
  = 0.
Proof.
  apply (proj2 (proj2 (proj2 (proj2 (bitScheme_consistent terrain homeTrail))))).
  discriminate.
Defined.

Lemma constructor_entities_witness :
  let W : Sample.World :=
    World.mk 5 5 (repeat Byte.x00 100) [3; 4]%positive [] in
  World.constructor Sample.allocatable 5 5 (Some [3; 4]%positive) None = inr W
  /\ World.entities W = [3; 4]%positive
  /\ Sample.query W (Rectangle.mk 0 0 10 10) "ALL" = [].
Proof.
  cbv zeta. split; [reflexivity|].
  destruct (constructor_entities (Quadtree_storage := Sample.storage)
              Sample.allocatable 5 5 (Some [3; 4]%positive) None
              (World.mk 5 5 (repeat Byte.x00 100) [3; 4]%positive [])
              eq_refl) as (Hents & _ & Hquery).
  split; [exact Hents|apply Hquery].
Defined.

Lemma layers_persist_witness :
  let W := Sample.insert Sample.empty5 1 "A" in
  map fst (World.entityLayers (snd (Sample.remove W 1 "A"))) = ["A"%string]
  /\ StringMap.get "A" (World.entityLayers (Sample.insert W 2 "B")) <> None.
Proof.
  cbv zeta.
  destruct (layers_persist (Quadtree_storage := Sample.storage)
              ListStorage.create (Sample.insert Sample.empty5 1 "A")
              1%positive "A") as (Hremove & _ & _).
  destruct (layers_persist (Quadtree_storage := Sample.storage)
              ListStorage.create (Sample.insert Sample.empty5 1 "A")
              2%positive "B") as (_ & _ & Hinsert).
  split; [exact Hremove|]. apply Hinsert. discriminate.
Defined.

Lemma query_other_layer_witness :
  let W := Sample.insert Sample.empty5 1 "A" in
  Sample.query (Sample.insert W 2 "B") (Rectangle.mk 0 0 3 3) "A"
  = Sample.query W (Rectangle.mk 0 0 3 3) "A"
  /\ Sample.query (snd (Sample.remove W 1 "B")) (Rectangle.mk 0 0 3 3) "A"
     = Sample.query W (Rectangle.mk 0 0 3 3) "A".
Proof.
  cbv zeta. split.
  - apply (query_other_layer (Quadtree_storage := Sample.storage)
             ListStorage.create (Sample.insert Sample.empty5 1 "A")
             2%positive "B" "A"); discriminate.
  - apply (query_other_layer (Quadtree_storage := Sample.storage)
             ListStorage.create (Sample.insert Sample.empty5 1 "A")
             1%positive "B" "A"); discriminate.
Defined.

Lemma query_ALL_witness :
  let W := Sample.insert (Sample.insert Sample.empty5 1 "A") 1 "B" in
  Sample.query W (Rectangle.mk 0 0 3 3) "ALL" = [1; 1]%positive
  /\ In 1%positive (Sample.query W (Rectangle.mk 0 0 3 3) "ALL").
Proof.
  cbv zeta. split; [reflexivity|].
  apply (proj2 (query_ALL (Quadtree_storage := Sample.storage)
                  (Sample.insert (Sample.insert Sample.empty5 1 "A") 1 "B")
                  (Rectangle.mk 0 0 3 3)) "B"%string).
  cbn. auto.
Defined.

Lemma insert_then_remove_witness :
  let W := Sample.insert (Sample.insert Sample.empty5 1 "A") 2 "A" in
  World.entities (snd (Sample.remove (Sample.insert W 3 "A") 3 "A"))
  = [1; 2]%positive
  /\ World.entities (snd (Sample.remove (Sample.insert W 1 "A") 1 "A"))
     = [2; 1]%positive.
Proof.
  cbv zeta.
  destruct (insert_then_remove (Quadtree_storage := Sample.storage)
              ListStorage.create
              (Sample.insert (Sample.insert Sample.empty5 1 "A") 2 "A")
              3%positive "A") as (_ & _ & Habsent & _).
  destruct (insert_then_remove (Quadtree_storage := Sample.storage)
              ListStorage.create
              (Sample.insert (Sample.insert Sample.empty5 1 "A") 2 "A")
              1%positive "A") as (_ & _ & _ & Hpresent).
  cbv zeta in Habsent, Hpresent. split.
  - apply Habsent. cbn. intros [H|[H|[]]]; discriminate.
  - apply (Hpresent [] [2%positive]); [reflexivity|intros []].
Defined.

Lemma update_idempotent_witness :
  let W := Sample.insert (Sample.insert Sample.empty5 1 "A") 2 "A" in
  World.update (Quadtree_storage := Sample.storage)
    (World.update (Quadtree_storage := Sample.storage) W)
  = World.update (Quadtree_storage := Sample.storage) W.
Proof.
  cbv zeta.
  apply (update_idempotent (Quadtree_storage := Sample.storage)).
  - intros e q. cbn. unfold ListStorage.insert, ListStorage.clear.
    now destruct (Rectangle.contains (ListStorage.boundary q) (Sample.pos e)).
  - intros q. reflexivity.
Defined.

Lemma reachable_sized_witness :
  World.sized (Sample.insert Sample.empty5 1 "A").
Proof.
  apply (reachable_sized (Quadtree_storage := Sample.storage)
           ListStorage.create).
  apply reach_insert.
  apply (reach_constructor ListStorage.create Sample.allocatable 5 5 None None). reflexivity.
Defined.

Lemma reachable_containers_ok_witness :
  containers_ok (Sample.insert (Sample.insert Sample.empty5 1 "A") 1 "A").
Proof.
  apply (reachable_containers_ok (Quadtree_storage := Sample.storage)
           ListStorage.create).
  do 2 apply reach_insert.
  apply (reach_constructor ListStorage.create Sample.allocatable 5 5 None None). reflexivity.
Defined.

Lemma constructor_RangeError_witness :
  World.constructor (Quadtree := ListStorage.t) Sample.allocatable
    (-5) 5 None None = inl JS.RangeError
  /\ World.constructor (Quadtree := ListStorage.t) Sample.allocatable
       65536 65536 None None = inl JS.RangeError.
Proof.
  split.
  - apply (proj2 (constructor_RangeError Sample.allocatable (-5) 5 None None)).
    split; [reflexivity|]. left. lia.
  - apply (proj2 (constructor_RangeError Sample.allocatable
                    65536 65536 None None)).
    split; [reflexivity|]. right. right. reflexivity.
Defined.

Lemma insert_layer_witness :
  StringMap.get "A"
    (World.entityLayers
       (Sample.insert (Sample.insert Sample.empty5 1 "A") 2 "B"))
  = StringMap.get "A" (World.entityLayers (Sample.insert Sample.empty5 1 "A")).
Proof.
  apply (proj2 (insert_layer (Quadtree_storage := Sample.storage)
                  ListStorage.create (Sample.insert Sample.empty5 1 "A")
                  2%positive "B")).
  discriminate.
Defined.
